(** * The tiered cache service of the fact checker

    A shallow embedding of [src/core/services/cache_service.py]
    (class [CacheService]): statistics, key and namespace enumeration, the
    memoization decorator, health checks and backup/restore.

    Conventions of the embedding.
    - A Python [str] is a Rocq [string] holding its UTF-8 bytes.  The
      operations used by the service ([startswith], [split(':', 1)],
      [replace('*', '')], [endswith], comparison in [sorted]) agree on code
      points and on UTF-8 bytes, because [':'], ['*'] and ['.'] are ASCII and
      UTF-8 preserves the code point order.
    - A [dict] is a [gmap], a [set] is a [gset].
    - Code that may raise returns a [result]; [try ... except Exception] is
      [try_except].
    - [await e] is sequential composition, except in [Module Memo], where the
      suspension points of the decorator are the steps of an interleaving
      semantics. *)

From Stdlib Require Import ZArith QArith Lia Ascii.
From stdpp Require Import gmap strings sorting list.

Local Open Scope Z_scope.

(** ** Python exceptions and the error monad *)

Inductive pyexn : Type :=
  | IndexError
  | UnicodeDecodeError
  | ConnectionError
  | FileNotFoundError
  | FileExistsError
  | NotADirectoryError
  | IsADirectoryError
  | PermissionError
  | UnpicklingError
  | ShutilError.

Inductive result (A : Type) : Type :=
  | Ok (a : A)
  | Raise (e : pyexn).
Arguments Ok {A} a.
Arguments Raise {A} e.

Global Instance result_ret : MRet result := λ A a, Ok a.
Global Instance result_bind : MBind result := λ A B f m,
  match m with
  | Ok a => f a
  | Raise e => Raise e
  end.
Global Instance result_fmap : FMap result := λ A B f m,
  match m with
  | Ok a => Ok (f a)
  | Raise e => Raise e
  end.

(** [try: body  except Exception: handler] *)
Definition try_except {A} (body : result A) (handler : pyexn → A) : A :=
  match body with
  | Ok a => a
  | Raise e => handler e
  end.

Definition is_ok {A} (r : result A) : bool :=
  match r with Ok _ => true | Raise _ => false end.

(** The comprehension [[f(x) for x in l]] when [f] may raise: the first
    exception aborts the whole comprehension. *)
Fixpoint result_mapM {A B} (f : A → result B) (l : list A) : result (list B) :=
  match l with
  | [] => Ok []
  | x :: l' =>
      match f x with
      | Ok y =>
          match result_mapM f l' with
          | Ok ys => Ok (y :: ys)
          | Raise e => Raise e
          end
      | Raise e => Raise e
      end
  end.

(** ** Python string operations used by the service *)

Module PyStr.


Definition colon : ascii := ":"%char.
Definition star : ascii := "*"%char.
Definition dot : ascii := "."%char.

(** [c in s] for a one-character [c]. *)
Fixpoint contains (c : ascii) (s : string) : bool :=
  match s with
  | EmptyString => false
  | String a s' => if decide (a = c) then true else contains c s'
  end.

(** [s.startswith(p)] *)
Definition startswith (s p : string) : bool := String.prefix p s.

(** [s.endswith(p)] *)
Fixpoint endswith (s p : string) : bool :=
  if decide (s = p) then true
  else match s with
       | EmptyString => false
       | String _ s' => endswith s' p
       end.

(** [s.replace(c, '')] for a one-character [c]. *)
Fixpoint remove_char (c : ascii) (s : string) : string :=
  match s with
  | EmptyString => EmptyString
  | String a s' =>
      if decide (a = c) then remove_char c s' else String a (remove_char c s')
  end.

(** [s.split(c, 1)]: a list of one or two pieces, cut at the first [c]. *)
Fixpoint split1 (c : ascii) (s : string) : list string :=
  match s with
  | EmptyString => [EmptyString]
  | String a s' =>
      if decide (a = c) then [EmptyString; s']
      else match split1 c s' with
           | h :: t => String a h :: t
           | [] => [String a EmptyString]
           end
  end.

(** [l[i]] on a list: [IndexError] out of range. *)
Definition index {A} (l : list A) (i : nat) : result A :=
  match l !! i with
  | Some x => Ok x
  | None => Raise IndexError
  end.

(** [l[-1]] *)
Definition index_last {A} (l : list A) : result A :=
  match last l with
  | Some x => Ok x
  | None => Raise IndexError
  end.

(** [os.path.splitext(name)[0]] for a name without directory separator:
    the extension starts at the last dot, unless only dots precede it. *)
Fixpoint all_dots (s : string) : bool :=
  match s with
  | EmptyString => true
  | String a s' => if decide (a = dot) then all_dots s' else false
  end.

(** The part of [s] before its last dot, if [s] has a dot. *)
Fixpoint before_last_dot (s : string) : option string :=
  match s with
  | EmptyString => None
  | String a s' =>
      match before_last_dot s' with
      | Some r => Some (String a r)
      | None => if decide (a = dot) then Some EmptyString else None
      end
  end.

Definition splitext_stem (name : string) : string :=
  match before_last_dot name with
  | Some stem => if all_dots stem then name else stem
  | None => name
  end.

(** *** UTF-8: [bytes.decode()] raises on an ill-formed sequence *)

Definition byte_in (lo hi : N) (c : ascii) : bool :=
  ((lo <=? N_of_ascii c) && (N_of_ascii c <=? hi))%N.

(** The decoder's automaton: [U0] between characters, [UCont n lo hi] when
    the next byte must lie in [lo..hi] and [n] more continuation bytes
    follow it. *)
Inductive utf8_state : Type :=
  | U0
  | UCont (n : nat) (lo hi : N).

Definition utf8_step (st : utf8_state) (c : ascii) : option utf8_state :=
  match st with
  | U0 =>
      if byte_in 0 127 c then Some U0
      else if byte_in 194 223 c then Some (UCont 0 128 191)
      else if byte_in 224 224 c then Some (UCont 1 160 191)
      else if byte_in 225 236 c then Some (UCont 1 128 191)
      else if byte_in 237 237 c then Some (UCont 1 128 159)
      else if byte_in 238 239 c then Some (UCont 1 128 191)
      else if byte_in 240 240 c then Some (UCont 2 144 191)
      else if byte_in 241 243 c then Some (UCont 2 128 191)
      else if byte_in 244 244 c then Some (UCont 2 128 143)
      else None
  | UCont n lo hi =>
      if byte_in lo hi c
      then Some (match n with O => U0 | S n' => UCont n' 128 191 end)
      else None
  end.

Fixpoint utf8_run (st : utf8_state) (s : string) : bool :=
  match s with
  | EmptyString => match st with U0 => true | UCont _ _ _ => false end
  | String c s' =>
      match utf8_step st c with
      | Some st' => utf8_run st' s'
      | None => false
      end
  end.

Definition utf8_valid : string → bool := utf8_run U0.

(** [k.decode()] on the bytes [k]. *)
Definition decode (k : string) : result string :=
  if utf8_valid k then Ok k else Raise UnicodeDecodeError.

(** How [str] comparison combines the comparison of two heads with that of
    the tails: the first difference decides. *)
Definition lexc (c1 c2 : comparison) : comparison :=
  match c1 with
  | Eq => c2
  | _ => c1
  end.

End PyStr.

(** ** The collaborators: file system and Redis client *)

Module FS.

(** A flat directory: file name to content (bytes).  [writable] says whether
    files may be created or removed in it. *)
Record dir : Type := Dir { writable : bool; files : gmap string string }.

(** [os.listdir(d)]; [None] is a path that does not exist. *)
Definition listdir (d : option dir) : result (list string) :=
  match d with
  | Some d => Ok (elements (dom (files d)))
  | None => Raise FileNotFoundError
  end.

(** [os.path.getsize(os.path.join(d, name))] *)
Definition getsize (d : option dir) (name : string) : result Z :=
  match d with
  | Some d =>
      match files d !! name with
      | Some c => Ok (Z.of_nat (String.length c))
      | None => Raise FileNotFoundError
      end
  | None => Raise FileNotFoundError
  end.

(** [with open(os.path.join(d, name), 'wb') as f: f.write(content)] *)
Definition write_file (d : option dir) (name content : string)
  : result (option dir) :=
  match d with
  | Some d =>
      if writable d
      then Ok (Some (Dir true (<[name := content]> (files d))))
      else Raise PermissionError
  | None => Raise FileNotFoundError
  end.

(** [os.remove(os.path.join(d, name))] *)
Definition remove (d : option dir) (name : string) : result (option dir) :=
  match d with
  | Some d =>
      if writable d
      then match files d !! name with
           | Some _ => Ok (Some (Dir true (delete name (files d))))
           | None => Raise FileNotFoundError
           end
      else Raise PermissionError
  | None => Raise FileNotFoundError
  end.

End FS.

Module Redis.

(** The client object held in [self.redis]: [up] says whether the server
    answers; [store] is the key space of the server. *)
Record client : Type := Client { up : bool; store : gmap string string }.

Definition dbsize (c : client) : result Z :=
  if up c then Ok (Z.of_nat (size (store c))) else Raise ConnectionError.

Definition ping (c : client) : result unit :=
  if up c then Ok tt else Raise ConnectionError.

(** [KEYS pattern]: the keys (bytes) the server's matcher accepts. *)
Definition keys (matches : string → string → bool) (c : client)
    (pattern : string) : result (list string) :=
  if up c
  then Ok (filter (λ k, matches pattern k = true) (elements (dom (store c))))
  else Raise ConnectionError.

End Redis.

(** ** The service object *)

(** [self.stats] *)
Record counters : Type := Counters {
  hits : Z;
  misses : Z;
  memory_hits : Z;
  file_hits : Z;
  redis_hits : Z
}.

(** The attributes of [CacheService] that the methods below read or write.
    [redis = None] is a service without Redis ([if self.redis:] is false). *)
Record CacheService (V : Type) : Type := Service {
  stats : counters;
  memory_cache : gmap string V;
  cache_dir : option FS.dir;
  redis : option Redis.client
}.
Arguments Service {V} _ _ _ _.
Arguments stats {V} _.
Arguments memory_cache {V} _.
Arguments cache_dir {V} _.
Arguments redis {V} _.

(** ** Statistics: [get_stats] and its helpers *)

Module Stats.

(** The values stored in the report.  [PyFloat q] is the float nearest to the
    rational [q]; [PyCoroutine body] is a coroutine object that nobody has
    awaited, [body] being what awaiting it would compute. *)
Inductive pyval : Type :=
  | PyInt (z : Z)
  | PyFloat (q : Q)
  | PyCoroutine (body : unit → pyval).

Definition await (v : pyval) : pyval :=
  match v with
  | PyCoroutine body => body tt
  | _ => v
  end.

Definition is_int (v : pyval) : bool :=
  match v with PyInt _ => true | _ => false end.

Section WithValues.
Context {V : Type}.

(** [_get_file_cache_size]: the loop adds the size of every [*.cache] file;
    any exception makes the whole method return 0. *)
Fixpoint sum_cache_sizes (d : option FS.dir) (names : list string) (total_size : Z)
  : result Z :=
  match names with
  | [] => Ok total_size
  | file :: rest =>
      if PyStr.endswith file ".cache"
      then match FS.getsize d file with
           | Ok n => sum_cache_sizes d rest (total_size + n)
           | Raise e => Raise e
           end
      else sum_cache_sizes d rest total_size
  end.

Definition _get_file_cache_size (self : CacheService V) : Z :=
  try_except
    (names ← FS.listdir (cache_dir self);
     sum_cache_sizes (cache_dir self) names 0)
    (λ _, 0).

(** The body of the coroutine function [_get_redis_size]. *)
Definition _get_redis_size_body (self : CacheService V) : Z :=
  try_except
    (match redis self with
     | Some r => Redis.dbsize r
     | None => Ok 0
     end)
    (λ _, 0).

(** [_get_redis_size] is declared [async def]: calling it builds a coroutine
    object and runs nothing. *)
Definition _get_redis_size (self : CacheService V) : pyval :=
  PyCoroutine (λ _, PyInt (_get_redis_size_body self)).

(** [get_stats].  [_get_last_cleanup_time] is defined outside the visible
    part of the class; its result is the parameter [last_cleanup]. *)
Definition get_stats (self : CacheService V) (last_cleanup : pyval)
  : gmap string pyval :=
  let total_requests := hits (stats self) + misses (stats self) in
  let hit_rate :=
    if 0 <? total_requests
    then PyFloat (inject_Z (hits (stats self)) / inject_Z total_requests)%Q
    else PyInt 0 in
  list_to_map [
    ("total_requests", PyInt total_requests);
    ("hits", PyInt (hits (stats self)));
    ("misses", PyInt (misses (stats self)));
    ("hit_rate", hit_rate);
    ("memory_hits", PyInt (memory_hits (stats self)));
    ("file_hits", PyInt (file_hits (stats self)));
    ("redis_hits", PyInt (redis_hits (stats self)));
    ("memory_cache_size", PyInt (Z.of_nat (size (memory_cache self))));
    ("file_cache_size", PyInt (_get_file_cache_size self));
    ("redis_cache_size", _get_redis_size self);
    ("last_cleanup", last_cleanup)
  ].

End WithValues.
End Stats.

(** ** Key and namespace enumeration: [get_keys], [get_namespaces] *)

Module Glob.

(** The pattern language shared by Redis' [KEYS] and Python's [glob]: ['*']
    matches any run of characters, ['?'] one character, any other character
    itself.  (Both libraries know more constructs, such as character classes,
    and [glob] hides names with a leading dot from a leading ['*']; the
    service never builds such patterns or names itself.) *)
Fixpoint glob_match (p s : string) {struct p} : bool :=
  match p with
  | EmptyString => match s with EmptyString => true | String _ _ => false end
  | String c p' =>
      if decide (c = "*"%char)
      then (fix star (s : string) : bool :=
              glob_match p' s ||
              match s with
              | EmptyString => false
              | String _ s' => star s'
              end) s
      else match s with
           | EmptyString => false
           | String d s' =>
               (if decide (c = "?"%char) then true else bool_decide (c = d))
               && glob_match p' s'
           end
  end.

End Glob.

Module Keys.

Section WithMatchers.
Context {V : Type}.

(** The matcher of the Redis server ([KEYS pattern]) and the matcher of
    [glob.glob] on file names: library code, taken as parameters. *)
Variable redis_match : string → string → bool.
Variable fn_match : string → string → bool.

(** [subject.split(':', 1)[1] if ':' in probe else subject] *)
Definition strip_namespace (probe subject : string) : result string :=
  if PyStr.contains PyStr.colon probe
  then PyStr.index (PyStr.split1 PyStr.colon subject) 1
  else Ok subject.

(** [if namespace: pattern = f"{namespace}:{pattern}"]; [None] and the empty
    string are both false. *)
Definition qualify (pattern : string) (namespace : option string) : string :=
  match namespace with
  | Some ns => if decide (ns = "") then pattern else ns +:+ ":" +:+ pattern
  | None => pattern
  end.

(** The memory tier's test: [k.startswith(pattern.replace('*', ''))]. *)
Definition memory_selects (pattern k : string) : bool :=
  PyStr.startswith k (PyStr.remove_char PyStr.star pattern).

Definition memory_keys (self : CacheService V) (pattern : string)
  : result (list string) :=
  result_mapM (λ k, strip_namespace k k)
    (filter (λ k, memory_selects pattern k = true)
       (elements (dom (memory_cache self)))).

Definition redis_keys (self : CacheService V) (pattern : string)
  : result (list string) :=
  match redis self with
  | Some r =>
      ks ← Redis.keys redis_match r pattern;
      result_mapM (λ k, d ← PyStr.decode k; strip_namespace d d) ks
  | None => Ok []
  end.

(** [glob.glob(os.path.join(self.cache_dir, f"{pattern}.cache"))], as the
    base names of the paths found; a missing directory yields no path. *)
Definition glob_cache_dir (self : CacheService V) (pattern : string)
  : list string :=
  match cache_dir self with
  | Some d =>
      filter (λ f, fn_match (pattern +:+ ".cache") f = true)
        (elements (dom (FS.files d)))
  | None => []
  end.

Definition file_keys (self : CacheService V) (pattern : string)
  : result (list string) :=
  result_mapM (λ f, strip_namespace f (PyStr.splitext_stem f))
    (glob_cache_dir self pattern).

(** The [try] block of [get_keys]: the set [keys] after the three updates. *)
Definition get_keys_set (self : CacheService V) (pattern : string)
    (namespace : option string) : result (gset string) :=
  let pattern := qualify pattern namespace in
  mk ← memory_keys self pattern;
  rk ← redis_keys self pattern;
  fk ← file_keys self pattern;
  Ok (list_to_set mk ∪ list_to_set rk ∪ list_to_set fk).

(** [sorted(list(keys))] *)
Definition sorted_list (keys : gset string) : list string :=
  merge_sort String.le (elements keys).

Definition get_keys (self : CacheService V) (pattern : string)
    (namespace : option string) : list string :=
  try_except (sorted_list <$> get_keys_set self pattern namespace) (λ _, []).

(** [k.split(':', 1)[0]] for the keys with a colon. *)
Definition namespace_of (k : string) : result (option string) :=
  if PyStr.contains PyStr.colon k
  then Some <$> PyStr.index (PyStr.split1 PyStr.colon k) 0
  else Ok None.

(** The comprehension's filter: keep the elements that passed the [if]. *)
Definition kept (l : list (option string)) : list string := omap id l.

Definition memory_namespaces (self : CacheService V) : result (list string) :=
  kept <$> result_mapM namespace_of (elements (dom (memory_cache self))).

Definition redis_namespaces (self : CacheService V) : result (list string) :=
  match redis self with
  | Some r =>
      ks ← Redis.keys redis_match r "*";
      kept <$> result_mapM (λ k, d ← PyStr.decode k; namespace_of d) ks
  | None => Ok []
  end.

Definition file_namespaces (self : CacheService V) : result (list string) :=
  names ← FS.listdir (cache_dir self);
  kept <$>
    result_mapM
      (λ file, if PyStr.endswith file ".cache" then namespace_of file else Ok None)
      names.

Definition get_namespaces_set (self : CacheService V) : result (gset string) :=
  mn ← memory_namespaces self;
  rn ← redis_namespaces self;
  fn ← file_namespaces self;
  Ok (list_to_set mn ∪ list_to_set rn ∪ list_to_set fn).

Definition get_namespaces (self : CacheService V) : list string :=
  try_except (sorted_list <$> get_namespaces_set self) (λ _, []).

End WithMatchers.
End Keys.

(** ** Health checks *)

Module Health.

Record status : Type := Status { memory : bool; file : bool; redis_ok : bool }.

Section WithValues.
Context {V : Type}.

Definition with_cache_dir (self : CacheService V) (d : option FS.dir)
  : CacheService V :=
  Service (stats self) (memory_cache self) d (redis self).

(** [_check_file_system]: write the sentinel [test.cache], remove it. *)
Definition _check_file_system (self : CacheService V)
  : CacheService V * bool :=
  match FS.write_file (cache_dir self) "test.cache" "test" with
  | Ok d1 =>
      match FS.remove d1 "test.cache" with
      | Ok d2 => (with_cache_dir self d2, true)
      | Raise _ => (with_cache_dir self d1, false)
      end
  | Raise _ => (self, false)
  end.

(** [_check_redis] *)
Definition _check_redis (self : CacheService V) : bool :=
  try_except
    (match redis self with
     | Some r => _ ← Redis.ping r; Ok true
     | None => Ok false
     end)
    (λ _, false).

(** [health_check]: the two probes catch their own exceptions, so the [try]
    block is entered with two plain Booleans. *)
Definition health_check (self : CacheService V) : CacheService V * status :=
  let '(self1, file_ok) := _check_file_system self in
  (self1,
   try_except
     (Ok (Status true file_ok (_check_redis self1)))
     (λ _, Status false false false)).

End WithValues.
End Health.

(** ** Backup and restore *)

Module Backup.

(** [datetime.now()], field by field. *)
Record datetime : Type := DateTime {
  year : N;
  month : N;
  day : N;
  hour : N;
  minute : N;
  second : N
}.

Definition digit (n : N) : ascii := ascii_of_N (48 + n).

(** A number in [width] decimal digits, zero padded ([%m], [%d], [%H], [%M],
    [%S] with width 2; [%Y] with width 4 for the years from 1000 on). *)
Fixpoint pad (width : nat) (n : N) : string :=
  match width with
  | O => ""
  | S w => pad w (n / 10)%N +:+ String (digit (n mod 10)%N) ""
  end.

(** [now.strftime('%Y%m%d_%H%M%S')] *)
Definition strftime (t : datetime) : string :=
  pad 4 (year t) +:+ pad 2 (month t) +:+ pad 2 (day t) +:+ "_" +:+
  pad 2 (hour t) +:+ pad 2 (minute t) +:+ pad 2 (second t).

Definition memory_backup_name (t : datetime) : string :=
  "memory_cache_" +:+ strftime t +:+ ".pkl".

Definition file_backup_name (t : datetime) : string :=
  "file_cache_" +:+ strftime t.

(** The datetimes [strftime] prints in exactly fifteen characters. *)
Definition valid_datetime (t : datetime) : Prop :=
  (1000 ≤ year t < 10000 ∧ 1 ≤ month t ≤ 12 ∧ 1 ≤ day t ≤ 31 ∧
   hour t < 24 ∧ minute t < 60 ∧ second t < 60)%N.

(** Chronological order: the position of a datetime on the calendar, in a
    mixed radix that is monotone in elapsed seconds. *)
Definition chrono (t : datetime) : N :=
  (((((year t * 100 + month t) * 100 + day t) * 100 + hour t) * 100
     + minute t) * 100 + second t)%N.

Section WithValues.
Context {V : Type}.

(** What a name in the backup directory may denote: a pickled memory cache,
    a file that is no pickle, or a directory of cache files. *)
Inductive entry : Type :=
  | Pickle (m : gmap string V)
  | Blob (bytes : string)
  | Tree (d : FS.dir).

(** The backup directory; [None] when the path does not exist. *)
Definition backup_dir : Type := option (gmap string entry).

Definition listdir (bd : backup_dir) : result (list string) :=
  match bd with
  | Some es => Ok (elements (dom es))
  | None => Raise FileNotFoundError
  end.

(** [with open(path, 'wb') as f: pickle.dump(m, f)] *)
Definition dump_pickle (es : gmap string entry) (name : string)
    (m : gmap string V) : result (gmap string entry) :=
  match es !! name with
  | Some (Tree _) => Raise IsADirectoryError
  | _ => Ok (<[name := Pickle m]> es)
  end.

(** [shutil.copytree] copies entry by entry and collects the errors of the
    entries it could not copy; it raises [shutil.Error] at the end if there
    were any.  A [copy_fault] says, for each entry that failed, what was left
    at the destination: nothing ([None]) or the first [n] bytes
    ([Some n]).  [copied_files fault files] is the destination after such a
    run. *)
Definition copy_fault : Type := gmap string (option nat).

Definition copied_files (fault : copy_fault) (files : gmap string string)
  : gmap string string :=
  map_imap
    (λ name content,
       match fault !! name with
       | Some None => None
       | Some (Some n) => Some (String.substring 0 n content)
       | None => Some content
       end)
    files.

(** [shutil.copytree(self.cache_dir, os.path.join(backup_dir, name))]: the
    source is listed first, then the destination is created, then the entries
    are copied; [fault = None] is a run without errors. *)
Definition copytree_out (es : gmap string entry) (src : option FS.dir)
    (name : string) (fault : option copy_fault)
  : gmap string entry * result unit :=
  match src with
  | None => (es, Raise FileNotFoundError)
  | Some d =>
      match es !! name with
      | Some _ => (es, Raise FileExistsError)
      | None =>
          match fault with
          | None => (<[name := Tree d]> es, Ok tt)
          | Some failed =>
              (<[name := Tree (FS.Dir (FS.writable d)
                                 (copied_files failed (FS.files d)))]> es,
               Raise ShutilError)
          end
      end
  end.

(** [redis.save()] *)
Definition redis_save (r : Redis.client) : result unit :=
  if Redis.up r then Ok tt else Raise ConnectionError.

(** [backup] at the moment [now]: the directory afterwards and the outcome;
    the two snapshot names carry [timestamp = now.strftime(...)].  [fault] is
    what happens to the copy of the cache directory.  The handler logs and
    re-raises, so what was written before a failure stays. *)
Definition backup (self : CacheService V) (bd : backup_dir) (now : datetime)
    (fault : option copy_fault) : backup_dir * result unit :=
  let es := default ∅ bd in
  match dump_pickle es (memory_backup_name now) (memory_cache self) with
  | Raise e => (Some es, Raise e)
  | Ok es1 =>
      match copytree_out es1 (cache_dir self) (file_backup_name now) fault with
      | (es2, Raise e) => (Some es2, Raise e)
      | (es2, Ok _) =>
          match redis self with
          | Some r => (Some es2, redis_save r)
          | None => (Some es2, Ok tt)
          end
      end
  end.

(** [sorted(f for f in os.listdir(backup_dir) if f.startswith(prefix))[-1]] *)
Definition latest (prefix : string) (bd : backup_dir) : result string :=
  names ← listdir bd;
  PyStr.index_last
    (merge_sort String.le
       (filter (λ f, PyStr.startswith f prefix = true) names)).

(** What [os.path.join(backup_dir, name)] names, if anything. *)
Definition entry_at (bd : backup_dir) (name : string) : option entry :=
  bd ≫= (.!! name).

(** [with open(os.path.join(backup_dir, name), 'rb') as f: pickle.load(f)] *)
Definition load_pickle (bd : backup_dir) (name : string)
  : result (gmap string V) :=
  match entry_at bd name with
  | Some (Pickle m) => Ok m
  | Some (Blob _) => Raise UnpicklingError
  | Some (Tree _) => Raise IsADirectoryError
  | None => Raise FileNotFoundError
  end.

(** [shutil.rmtree(self.cache_dir)] unlinks the entries one by one and then
    removes the directory; the first failure raises, and what was unlinked
    before stays unlinked.  In a directory that is not writable no entry can
    be unlinked.  Otherwise [fault = None] is a run without errors, and
    [fault = Some (removed, e)] a run that raised [e] when the entries named
    in [removed] were gone.  The result is the directory afterwards and the
    outcome. *)
Definition rmtree (fault : option (gset string * pyexn)) (d : option FS.dir)
  : option FS.dir * result unit :=
  match d with
  | Some d =>
      if FS.writable d || bool_decide (FS.files d = ∅)
      then match fault with
           | None => (None, Ok tt)
           | Some (removed, e) =>
               (Some (FS.Dir (FS.writable d)
                        (filter (λ kv, kv.1 ∉ removed) (FS.files d))),
                Raise e)
           end
      else (Some d, Raise PermissionError)
  | None => (None, Raise FileNotFoundError)
  end.

(** [shutil.copytree(os.path.join(backup_dir, name), self.cache_dir)]: the
    destination afterwards and the outcome. *)
Definition copytree_in (bd : backup_dir) (name : string) (dst : option FS.dir)
    (fault : option copy_fault) : option FS.dir * result unit :=
  match entry_at bd name with
  | Some (Tree d) =>
      match dst with
      | Some _ => (dst, Raise FileExistsError)
      | None =>
          match fault with
          | None => (Some d, Ok tt)
          | Some failed =>
              (Some (FS.Dir (FS.writable d) (copied_files failed (FS.files d))),
               Raise ShutilError)
          end
      end
  | Some _ => (dst, Raise NotADirectoryError)
  | None => (dst, Raise FileNotFoundError)
  end.

Definition with_memory (self : CacheService V) (m : gmap string V)
  : CacheService V :=
  Service (stats self) m (cache_dir self) (redis self).

Definition with_cache_dir (self : CacheService V) (d : option FS.dir)
  : CacheService V :=
  Service (stats self) (memory_cache self) d (redis self).

(** What the file system does to one run of [restore]: to its [rmtree] and
    to its [copytree]. *)
Record faults : Type := Faults {
  rm_fault : option (gset string * pyexn);
  cp_fault : option copy_fault
}.

Definition no_faults : faults := Faults None None.

(** [restore]: the service afterwards and the outcome.  The assignments to
    [self.memory_cache] and the calls on [self.cache_dir] take effect as they
    are executed; the handler logs and re-raises. *)
Definition restore (self : CacheService V) (bd : backup_dir) (io : faults)
  : CacheService V * result unit :=
  match latest "memory_cache_" bd with
  | Raise e => (self, Raise e)
  | Ok memory_backup =>
      match load_pickle bd memory_backup with
      | Raise e => (self, Raise e)
      | Ok m =>
          let self1 := with_memory self m in
          match latest "file_cache_" bd with
          | Raise e => (self1, Raise e)
          | Ok file_backup =>
              match rmtree (rm_fault io) (cache_dir self1) with
              | (rest, Raise e) => (with_cache_dir self1 rest, Raise e)
              | (gone, Ok _) =>
                  let self2 := with_cache_dir self1 gone in
                  match copytree_in bd file_backup (cache_dir self2) (cp_fault io) with
                  | (d, Raise e) => (with_cache_dir self2 d, Raise e)
                  | (d, Ok _) =>
                      let self3 := with_cache_dir self2 d in
                      match redis self3 with
                      | Some _ =>
                          (self3, _ ← latest "redis_cache_" bd; Ok tt)
                      | None => (self3, Ok tt)
                      end
                  end
              end
          end
      end
  end.

End WithValues.
Arguments entry : clear implicits.
Arguments backup_dir : clear implicits.
End Backup.

(** ** The orchestrator: [get], [set], [delete]

    The visible part of [cache_service.py] starts after these three methods
    (their code is elided from the file); they are modelled from the written
    specification of the service. *)

Module Orchestrator.

(** Modelled from the spec: the cache entry
    [{ key, serializedValue, createdAt, expiresAt? }] of [get]/[set], whose
    code is not in the visible part of the class. *)
Record entry : Type := Entry {
  e_key : string;
  e_value : string;
  created_at : Z;
  expires_at : option Z
}.

(** Modelled from the spec: lazy expiry of the missing [get]: an entry whose
    [expiresAt] has passed is treated as absent by every reader. *)
Definition expired (now : Z) (e : entry) : bool :=
  match expires_at e with
  | Some t => t <=? now
  | None => false
  end.

(** Modelled from the spec: the canonical key ["namespace:rawkey"] of the
    missing [get]/[set]/[delete]. *)
Definition canonical (namespace key : string) : string :=
  namespace +:+ ":" +:+ key.

(** Modelled from the spec: the MemoryTier of the missing [get]/[set]: a fixed
    capacity and the entries in recency order, most recently used last. *)
Record memory_tier : Type := MemoryTier {
  capacity : nat;
  entries : list entry
}.

Definition has_key (k : string) (e : entry) : bool := bool_decide (e_key e = k).

Definition without (k : string) (l : list entry) : list entry :=
  filter (λ e, e_key e ≠ k) l.

(** Modelled from the spec: MemoryTier insert of the missing [set]: on insert
    when at capacity, evict the least recently used entry before inserting
    the new one.  A previous entry under the same key is overwritten. *)
Definition memory_insert (m : memory_tier) (e : entry) : memory_tier :=
  let l := without (e_key e) (entries m) in
  let l := if decide (capacity m ≤ length l)%nat then tail l else l in
  MemoryTier (capacity m) (l ++ [e]).

(** Modelled from the spec: MemoryTier get of the missing [get]: an expired
    entry is removed and reported as a miss; a hit becomes the most recently
    used entry. *)
Definition memory_get (now : Z) (m : memory_tier) (k : string)
  : memory_tier * option entry :=
  match find (has_key k) (entries m) with
  | Some e =>
      if expired now e
      then (MemoryTier (capacity m) (without k (entries m)), None)
      else (MemoryTier (capacity m) (without k (entries m) ++ [e]), Some e)
  | None => (m, None)
  end.

Definition memory_delete (m : memory_tier) (k : string) : memory_tier :=
  MemoryTier (capacity m) (without k (entries m)).

(** Modelled from the spec: the FileTier of the missing [get]/[set]: one file
    per entry, named by a hash of the canonical key; [f_ok] is false while
    the disk fails, which readers see as a miss and writers ignore. *)
Record file_tier : Type := FileTier {
  f_ok : bool;
  f_files : gmap string entry
}.

(** Modelled from the spec: the RemoteTier of the missing [get]/[set]:
    entries under the literal canonical key; [r_ok] is false while the
    remote store is unreachable. *)
Record remote_tier : Type := RemoteTier {
  r_ok : bool;
  r_store : gmap string entry
}.

(** Modelled from the spec: the state the missing [get]/[set]/[delete] work
    on: the three tiers (the remote one optional), the counters and the
    configured default TTL. *)
Record cache : Type := Cache {
  mem : memory_tier;
  file : file_tier;
  remote : option remote_tier;
  counts : counters;
  default_ttl : option Z
}.

Inductive outcome (value : Type) : Type :=
  | Hit (v : value)
  | Miss
  | SerializationError.
Arguments Hit {value} v.
Arguments Miss {value}.
Arguments SerializationError {value}.

Section WithCodec.
Context {value : Type}.

(** The serialization boundary and the file-name hash. *)
Variable serialize : value → option string.
Variable deserialize : string → option value.
Variable hash : string → string.

Definition file_get (now : Z) (f : file_tier) (k : string)
  : file_tier * option entry :=
  if f_ok f
  then match f_files f !! hash k with
       | Some e =>
           if expired now e
           then (FileTier true (delete (hash k) (f_files f)), None)
           else (f, Some e)
       | None => (f, None)
       end
  else (f, None).

Definition file_put (f : file_tier) (e : entry) : file_tier :=
  if f_ok f then FileTier true (<[hash (e_key e) := e]> (f_files f)) else f.

Definition file_delete (f : file_tier) (k : string) : file_tier :=
  if f_ok f then FileTier true (delete (hash k) (f_files f)) else f.

Definition remote_get (now : Z) (r : option remote_tier) (k : string)
  : option entry :=
  match r with
  | Some r =>
      if r_ok r
      then match r_store r !! k with
           | Some e => if expired now e then None else Some e
           | None => None
           end
      else None
  | None => None
  end.

Definition remote_put (r : option remote_tier) (e : entry)
  : option remote_tier :=
  match r with
  | Some r =>
      if r_ok r then Some (RemoteTier true (<[e_key e := e]> (r_store r)))
      else Some r
  | None => None
  end.

Definition remote_delete (r : option remote_tier) (k : string)
  : option remote_tier :=
  match r with
  | Some r =>
      if r_ok r then Some (RemoteTier true (delete k (r_store r))) else Some r
  | None => None
  end.

Definition count_memory_hit (s : counters) : counters :=
  Counters (hits s + 1) (misses s) (memory_hits s + 1) (file_hits s) (redis_hits s).
Definition count_file_hit (s : counters) : counters :=
  Counters (hits s + 1) (misses s) (memory_hits s) (file_hits s + 1) (redis_hits s).
Definition count_remote_hit (s : counters) : counters :=
  Counters (hits s + 1) (misses s) (memory_hits s) (file_hits s) (redis_hits s + 1).
Definition count_miss (s : counters) : counters :=
  Counters (hits s) (misses s + 1) (memory_hits s) (file_hits s) (redis_hits s).

Definition decoded (e : entry) : outcome value :=
  match deserialize (e_value e) with
  | Some v => Hit v
  | None => SerializationError
  end.

(** Modelled from the spec: [get(key, namespace)], absent from the visible
    part of the class: MemoryTier first, then FileTier (a hit is promoted
    into memory), then RemoteTier (a hit is promoted into file and memory),
    otherwise a miss; one counter is incremented per call. *)
Definition get (c : cache) (key namespace : string) (now : Z)
  : cache * outcome value :=
  let k := canonical namespace key in
  match memory_get now (mem c) k with
  | (m1, Some e) =>
      (Cache m1 (file c) (remote c) (count_memory_hit (counts c)) (default_ttl c),
       decoded e)
  | (m1, None) =>
      match file_get now (file c) k with
      | (f1, Some e) =>
          (Cache (memory_insert m1 e) f1 (remote c)
             (count_file_hit (counts c)) (default_ttl c),
           decoded e)
      | (f1, None) =>
          match remote_get now (remote c) k with
          | Some e =>
              (Cache (memory_insert m1 e) (file_put f1 e) (remote c)
                 (count_remote_hit (counts c)) (default_ttl c),
               decoded e)
          | None =>
              (Cache m1 f1 (remote c) (count_miss (counts c)) (default_ttl c),
               Miss)
          end
      end
  end.

(** Modelled from the spec: [set(key, value, ttl?, namespace)], absent from
    the visible part of the class: serialize, write to MemoryTier, then
    attempt FileTier and RemoteTier with the same [expiresAt]; the call
    succeeds if the memory write does.  The result [false] reports the
    [SerializationError]. *)
Definition set (c : cache) (key : string) (v : value) (ttl : option Z)
    (namespace : string) (now : Z) : cache * bool :=
  match serialize v with
  | None => (c, false)
  | Some bytes =>
      let ttl := match ttl with Some t => Some t | None => default_ttl c end in
      let e := Entry (canonical namespace key) bytes now ((λ t, now + t) <$> ttl) in
      (Cache (memory_insert (mem c) e) (file_put (file c) e)
         (remote_put (remote c) e) (counts c) (default_ttl c),
       true)
  end.

(** Modelled from the spec: [delete(key, namespace)], absent from the visible
    part of the class: the entry leaves all three tiers. *)
Definition delete (c : cache) (key namespace : string) : cache :=
  let k := canonical namespace key in
  Cache (memory_delete (mem c) k) (file_delete (file c) k)
    (remote_delete (remote c) k) (counts c) (default_ttl c).

End WithCodec.
End Orchestrator.

(** ** The memoization decorator: [cached] *)

Module Memo.

(** A function object: where it is defined and its short name. *)
Record pyfunc : Type := PyFunc {
  f_module : string;
  f_qualname : string;
  f_name : string
}.

Section Key.
Context {Args KW : Type}.

(** [str(args)] and [str(kwargs)]: the renderings the builtin [str] gives
    the positional tuple and the keyword dictionary. *)
Variable str_args : Args → string.
Variable str_kwargs : KW → string.

(** [key = f"{func.__name__}:{str(args)}:{str(kwargs)}"] *)
Definition derive_key (func : pyfunc) (args : Args) (kwargs : KW) : string :=
  f_name func +:+ ":" +:+ str_args args +:+ ":" +:+ str_kwargs kwargs.

End Key.

(** [str] of a tuple of integers and of a keyword dictionary with integer
    values, as Python prints them: [(1, 2)], [(1,)], [()], [{'a': 1}]. *)
Definition str_int (z : Z) : string := pretty.pretty z.

Fixpoint join (sep : string) (l : list string) : string :=
  match l with
  | [] => ""
  | [x] => x
  | x :: l' => x +:+ sep +:+ join sep l'
  end.

Definition str_int_tuple (args : list Z) : string :=
  match args with
  | [x] => "(" +:+ str_int x +:+ ",)"
  | _ => "(" +:+ join ", " (str_int <$> args) +:+ ")"
  end.

Definition str_int_dict (kwargs : list (string * Z)) : string :=
  "{" +:+ join ", " ((λ kv, "'" +:+ kv.1 +:+ "': " +:+ str_int kv.2) <$> kwargs)
  +:+ "}".

Section Wrapper.
Context {C R : Type}.

(** [await self.get(key, namespace=namespace)] and
    [await self.set(key, result, ttl=ttl, namespace=namespace)] at the
    decorator's [ttl] and [namespace]; [None] is Python's [None], which [get]
    returns on a miss. *)
Variable cache_get : C → string → C * option R.
Variable cache_set : C → string → option R → C.

(** The wrapped coroutine function at the call's arguments: what its [n]-th
    run returns. *)
Variable func : nat → option R.
Variable key : string.

(** One call of [wrapper] without interleaving: the cache afterwards, the
    number of runs of [func] so far, and the value returned. *)
Definition wrapper (c : C) (calls : nat) : C * nat * option R :=
  let '(c1, result) := cache_get c key in
  match result with
  | Some v => (c1, calls, Some v)
  | None =>
      let result := func calls in
      (cache_set c1 key result, S calls, result)
  end.

(** Where a call of [wrapper] stands: not started; suspended in
    [await func(...)], its [n]-th run; back from [func] with [r] and about
    to store it; returned. *)
Inductive task : Type :=
  | Start
  | Running (n : nat)
  | Computed (r : option R)
  | Done (r : option R).

Record world : Type := World {
  w_cache : C;
  calls : nat;
  tasks : list task
}.

(** The event loop resumes task [i] until its next suspension. *)
Definition step (w : world) (i : nat) : world :=
  match tasks w !! i with
  | Some Start =>
      let '(c1, result) := cache_get (w_cache w) key in
      match result with
      | Some v => World c1 (calls w) (<[i := Done (Some v)]> (tasks w))
      | None => World c1 (S (calls w)) (<[i := Running (calls w)]> (tasks w))
      end
  | Some (Running n) =>
      World (w_cache w) (calls w) (<[i := Computed (func n)]> (tasks w))
  | Some (Computed r) =>
      World (cache_set (w_cache w) key r) (calls w) (<[i := Done r]> (tasks w))
  | Some (Done _) | None => w
  end.

Definition run (schedule : list nat) (w : world) : world :=
  foldl step w schedule.

(** [n] calls of [wrapper] created at once on the cache [c]. *)
Definition spawn (n : nat) (c : C) : world := World c 0 (replicate n Start).

(** The schedule on which no two calls overlap. *)
Definition one_by_one (n : nat) : list nat :=
  flat_map (λ i, [i; i; i]) (seq 0 n).

(** The calls that have gone past their [await self.get(...)]. *)
Definition is_started (t : task) : bool :=
  match t with
  | Start => false
  | _ => true
  end.

Fixpoint count_started (l : list task) : nat :=
  match l with
  | [] => 0
  | t :: l' => (if is_started t then 1 else 0) + count_started l'
  end.

(** The state of [n] calls on the cache [c0] once the first [i] of them have
    run to completion, one after the other, [r] being what [func] returned. *)
Definition served (n : nat) (c0 : C) (r : R) (i : nat) (w : world) : Prop :=
  length (tasks w) = n ∧
  (∀ j, (j < i)%nat → tasks w !! j = Some (Done (Some r))) ∧
  (∀ j, (i ≤ j < n)%nat → tasks w !! j = Some Start) ∧
  match i with
  | O => calls w = O ∧ w_cache w = c0
  | S _ => calls w = 1%nat ∧ (cache_get (w_cache w) key).2 = Some r
  end.

End Wrapper.
Arguments Start {R}.
Arguments Running {R} n.

(** A dictionary as the cache behind the decorator: [get] returns the stored
    value or [None]. *)
Definition dict_get {R} (c : gmap string (option R)) (k : string)
  : gmap string (option R) * option R :=
  (c, default None (c !! k)).

Definition dict_set {R} (c : gmap string (option R)) (k : string)
    (v : option R) : gmap string (option R) :=
  <[k := v]> c.

End Memo.

(** ** Sample services used in the examples below *)

Module Samples.

(** A service with one cached claim, a writable cache directory holding the
    same entry, and a reachable Redis with two keys. *)
Definition with_redis : CacheService string :=
  Service (Counters 3 1 2 1 0)
    {[ "factcheck:claim:123" := "VERIFIED" ]}
    (Some (FS.Dir true {[ "factcheck:claim:123.cache" := "VERIFIED" ]}))
    (Some (Redis.Client true
             {[ "factcheck:claim:123" := "VERIFIED";
                "factcheck:claim:456" := "FALSE" ]})).

(** The same service without Redis, before any request. *)
Definition fresh : CacheService string :=
  Service (Counters 0 0 0 0 0) ∅ (Some (FS.Dir true ∅)) None.

(** A service whose cache directory is read-only. *)
Definition read_only : CacheService string :=
  Service (Counters 0 0 0 0 0) ∅ (Some (FS.Dir false ∅)) None.

(** A service whose Redis server does not answer. *)
Definition redis_down : CacheService string :=
  Service (Counters 0 0 0 0 0) ∅ (Some (FS.Dir true ∅))
    (Some (Redis.Client false ∅)).

(** Services holding the single key ["xfoo"] in exactly one tier. *)
Definition in_memory : CacheService string :=
  Service (Counters 0 0 0 0 0) {[ "xfoo" := "v" ]} (Some (FS.Dir true ∅)) None.

Definition in_files : CacheService string :=
  Service (Counters 0 0 0 0 0) ∅
    (Some (FS.Dir true {[ "xfoo.cache" := "v" ]})) None.

Definition in_redis : CacheService string :=
  Service (Counters 0 0 0 0 0) ∅ (Some (FS.Dir true ∅))
    (Some (Redis.Client true {[ "xfoo" := "v" ]})).

(** A reachable Redis holding a key that is not UTF-8 (the byte 0xFF). *)
Definition bad_redis_key : CacheService string :=
  Service (Counters 0 0 0 0 0) {[ "ns:a" := "v" ]} (Some (FS.Dir true ∅))
    (Some (Redis.Client true {[ String (ascii_of_N 255) "" := "v" ]})).

(** A service whose cache directory has been removed. *)
Definition no_cache_dir : CacheService string :=
  Service (Counters 0 0 0 0 0) {[ "ns:a" := "v" ]} None None.

(** Two snapshots: the first or the second of March 2024. *)
Definition march_1 : Backup.datetime := Backup.DateTime 2024 3 1 23 59 59.
Definition march_2 : Backup.datetime := Backup.DateTime 2024 3 2 0 0 0.

Definition two_backups : gmap string (Backup.entry string) :=
  default ∅
    (Backup.backup in_files (Backup.backup in_memory None march_1 None).1 march_2
       None).1.

(** What [backup] leaves behind when the cache directory is missing: the
    memory snapshot alone. *)
Definition half_backup : Backup.backup_dir string :=
  (Backup.backup no_cache_dir None march_1 None).1.

(** A backup directory whose file snapshot is a plain file. *)
Definition broken_backup : Backup.backup_dir string :=
  Some {[ "memory_cache_20240301_235959.pkl" := Backup.Pickle ∅;
          "file_cache_20240301_235959" := Backup.Blob "" ]}.

(** The service [in_files] after a failed [restore] from [broken_backup]. *)
Definition after_broken_restore : CacheService string :=
  Service (stats in_files) ∅ None None.

(** What two runs of [backup] leave behind when the cache directory is there
    on the first of March and missing on the second: two memory snapshots
    and one file snapshot. *)
Definition uneven_backups : gmap string (Backup.entry string) :=
  default ∅
    (Backup.backup no_cache_dir (Backup.backup in_files None march_1 None).1
       march_2 None).1.

(** A service with a live entry in memory and two cache files, and its
    backup of the first of March. *)
Definition two_files : CacheService string :=
  Service (Counters 0 0 0 0 0) {[ "k" := "live" ]}
    (Some (FS.Dir true {[ "a.cache" := "1"; "b.cache" := "2" ]})) None.

Definition two_files_backup : Backup.backup_dir string :=
  (Backup.backup two_files None march_1 None).1.

(** A removal that raises once ["a.cache"] is unlinked, and a copy that
    cannot write ["b.cache"]. *)
Definition rm_stops_midway : Backup.faults :=
  Backup.Faults (Some ({[ "a.cache" ]}, PermissionError)) None.

Definition cp_stops_midway : Backup.faults :=
  Backup.Faults None (Some {[ "b.cache" := None ]}).

(** The service [in_files] after a [restore] from [two_files_backup] whose
    copy stopped midway: the memory of the snapshot and one of its two cache
    files. *)
Definition half_restored : CacheService string :=
  Service (stats in_files) {[ "k" := "live" ]}
    (Some (FS.Dir true {[ "a.cache" := "1" ]})) None.

(** Two module-level functions with the same short name, as
    [detect_language] in [src/utils/helpers.py] and a namesake elsewhere. *)
Definition detect_language_helpers : Memo.pyfunc :=
  Memo.PyFunc "src.utils.helpers" "detect_language" "detect_language".
Definition detect_language_other : Memo.pyfunc :=
  Memo.PyFunc "src.utils.text" "detect_language" "detect_language".

(** The key of the call [detect_language(7)]. *)
Definition call_key : string :=
  Memo.derive_key Memo.str_int_tuple Memo.str_int_dict detect_language_helpers [7] [].

(** A wrapped operation whose result changes from run to run. *)
Definition nth_run (n : nat) : option nat := Some n.

(** An orchestrator state: memory tier of capacity 2 that is full, a failing
    disk and no remote tier; values are stored as they are. *)
Definition busy_cache : Orchestrator.cache :=
  Orchestrator.Cache
    (Orchestrator.MemoryTier 2
       [Orchestrator.Entry "factcheck:a" "1" 0 None;
        Orchestrator.Entry "factcheck:claim:123" "old" 0 (Some 5)])
    (Orchestrator.FileTier false ∅)
    None
    (Counters 0 0 0 0 0)
    None.

Definition plain_serialize (v : string) : option string := Some v.
Definition plain_deserialize (b : string) : option string := Some b.
Definition plain_hash (k : string) : string := k.

End Samples.

(** ** The size of the file tier, as a sum *)

Module FileSize.
(** What one directory entry adds to the file tier's size: its length in
    bytes when its name ends in [.cache], nothing otherwise. *)
Definition cache_bytes (name content : string) : Z :=
  if PyStr.endswith name ".cache" then Z.of_nat (String.length content) else 0.

(** The bytes held by the [*.cache] files of a directory. *)
Definition total_cache_bytes (files : gmap string string) : Z :=
  map_fold (λ name content acc, acc + cache_bytes name content) 0 files.

(** The bytes the name [name] stands for in [files]. *)
Definition bytes_at (files : gmap string string) (name : string) : Z :=
  cache_bytes name (default "" (files !! name)).
End FileSize.

(** ** Progress of a call of the wrapper *)

Module MemoProgress.
(** How far a call of the wrapper has got: the number of resumptions it has
    used, a call that has returned counting as three. *)
Definition phase {R} (t : Memo.task (R:=R)) : nat :=
  match t with
  | Memo.Start => 0
  | Memo.Running _ => 1
  | Memo.Computed _ => 2
  | Memo.Done _ => 3
  end.
End MemoProgress.

(** ** Monitoring: [monitor] *)

Module Monitor.

(** One entry of [stats_history]; [redis_usage] is [None] when the dictionary
    has no such key. *)
Record sample (A : Type) : Type := Sample {
  timestamp : string;
  memory_usage : Z;
  file_usage : Z;
  hit_rate : A;
  operations_per_second : A;
  redis_usage : option Z
}.
Arguments Sample {A} _ _ _ _ _ _.
Arguments timestamp {A} _.
Arguments memory_usage {A} _.
Arguments file_usage {A} _.
Arguments hit_rate {A} _.
Arguments operations_per_second {A} _.
Arguments redis_usage {A} _.

(** [duration // interval]: [None] stands for [ZeroDivisionError]. *)
Definition floordiv (a b : Z) : option Z :=
  if decide (b = 0) then None else Some (a / b).

Section WithService.
Context {V A : Type}.

(** [_calculate_hit_rate] and [_calculate_ops_rate] are defined outside the
    visible part of the class: parameters.  [clock i] is
    [datetime.now().isoformat()] and [states i] the service as the [i]-th
    iteration of the loop finds it (the loop sleeps between two iterations,
    so the service may change; the reads of one iteration are taken as one
    observation). *)
Variable _calculate_hit_rate : CacheService V → result A.
Variable _calculate_ops_rate : CacheService V → result A.
Variable clock : nat → string.
Variable states : nat → CacheService V.

(** The body of the loop at iteration [i]. *)
Definition take_sample (i : nat) : result (sample A) :=
  let self := states i in
  hr ← _calculate_hit_rate self;
  ops ← _calculate_ops_rate self;
  ru ← match redis self with
       | Some r => Some <$> Redis.dbsize r
       | None => Ok None
       end;
  Ok (Sample (clock i) (Z.of_nat (size (memory_cache self)))
        (Stats._get_file_cache_size self) hr ops ru).

(** [monitor(duration, interval)] *)
Definition monitor (duration interval : Z) : list (sample A) :=
  match floordiv duration interval with
  | None => []
  | Some iterations =>
      try_except (result_mapM take_sample (seq 0 (Z.to_nat iterations))) (λ _, [])
  end.

End WithService.
End Monitor.

(** ** More sample services *)

Module MoreSamples.

(** A service without Redis: two namespaced keys in memory, and a cache
    directory with one cache file and one stray file. *)
Definition namespaced_dir : FS.dir :=
  FS.Dir true {[ "3f2a.cache" := "VERIFIED"; "notes.txt" := "x" ]}.

Definition namespaced : CacheService string :=
  Service (Counters 0 0 0 0 0)
    {[ "factcheck:claim:123" := "VERIFIED"; "nlp:lang:7" := "fa" ]}
    (Some namespaced_dir)
    None.

(** A backup of [Samples.two_files] whose copy left ["a.cache"] empty and
    could not create ["b.cache"]. *)
Definition copy_cut_short : Backup.copy_fault :=
  {[ "a.cache" := Some 0%nat; "b.cache" := None ]}.

Definition cut_short_backup : Backup.backup_dir string :=
  (Backup.backup Samples.two_files None Samples.march_1 (Some copy_cut_short)).1.

(** A wrapped operation that never finds anything. *)
Definition always_none (n : nat) : option nat := None.

(** The missing rate helpers of [monitor], as constant functions. *)
Definition rate_zero (self : CacheService string) : result Z := Ok 0.

Definition clock (i : nat) : string := "2024-03-01T00:00:00".

Definition steady (i : nat) : CacheService string := Samples.with_redis.

Definition failing (i : nat) : CacheService string := Samples.redis_down.

(** The directory after one backup of [Samples.in_memory]. *)
Definition one_backup : Backup.backup_dir string :=
  (Backup.backup Samples.in_memory None Samples.march_1 None).1.

(** The directory after a second backup, of [Samples.in_files]. *)
Definition second_backup : Backup.backup_dir string :=
  (Backup.backup Samples.in_files one_backup Samples.march_2 None).1.

End MoreSamples.


(** * Properties *)

(** ** Sanity checks of the string helpers *)

Example strftime_ex :
  Backup.strftime (Backup.DateTime 2024 3 7 9 5 0) = "20240307_090500".
Proof. reflexivity. Qed.
Example split1_ns : PyStr.split1 PyStr.colon "factcheck:claim:123" = ["factcheck"; "claim:123"].
Proof. reflexivity. Qed.
Example split1_none : PyStr.split1 PyStr.colon "plain" = ["plain"].
Proof. reflexivity. Qed.
Example splitext_ex : PyStr.splitext_stem "ns:key.cache" = "ns:key".
Proof. reflexivity. Qed.
Example splitext_dots : PyStr.splitext_stem "..cache" = "..cache".
Proof. reflexivity. Qed.
Example splitext_two : PyStr.splitext_stem "a.b.cache" = "a.b".
Proof. reflexivity. Qed.
Example endswith_ex : PyStr.endswith "a.cache" ".cache" = true ∧ PyStr.endswith "cache" ".cache" = false.
Proof. split; reflexivity. Qed.
Example utf8_ok : PyStr.utf8_valid "caf" = true.
Proof. reflexivity. Qed.
Example utf8_bad : PyStr.utf8_valid (String (ascii_of_N 255) "") = false.
Proof. reflexivity. Qed.
Example utf8_two : PyStr.utf8_valid (String (ascii_of_N 195) (String (ascii_of_N 169) "")) = true.
Proof. reflexivity. Qed.

(** ** Statistics *)

Section StatsFacts.
Context {V : Type}.
Implicit Types self : CacheService V.

Lemma get_stats_lookup_hit_rate self lc :
  Stats.get_stats self lc !! "hit_rate" =
  Some (if 0 <? hits (stats self) + misses (stats self)
        then Stats.PyFloat
               (inject_Z (hits (stats self)) /
                inject_Z (hits (stats self) + misses (stats self)))%Q
        else Stats.PyInt 0).
Proof. unfold Stats.get_stats. by simplify_map_eq. Qed.

Lemma get_stats_lookup_redis self lc :
  Stats.get_stats self lc !! "redis_cache_size" = Some (Stats._get_redis_size self).
Proof. unfold Stats.get_stats. by simplify_map_eq. Qed.

(** The zero test on the sum of the two counters decides whether there was
    any request. *)
Lemma inject_Z_nonzero (n : Z) : n ≠ 0 → ¬ (inject_Z n == 0)%Q.
Proof. intros Hn. unfold Qeq. simpl. lia. Qed.

(** C4: [get_stats] reports [hit_rate = hits / (hits + misses)], and the
    integer 0, computed without any division, when no request has been
    counted. *)
Theorem get_stats_hit_rate self lc :
  0 ≤ hits (stats self) → 0 ≤ misses (stats self) →
  let h := hits (stats self) in
  let n := hits (stats self) + misses (stats self) in
  Stats.get_stats self lc !! "total_requests" = Some (Stats.PyInt n) ∧
  (n = 0 → Stats.get_stats self lc !! "hit_rate" = Some (Stats.PyInt 0)) ∧
  (n ≠ 0 → ∃ q, Stats.get_stats self lc !! "hit_rate" = Some (Stats.PyFloat q) ∧
                (q == inject_Z h / inject_Z n)%Q ∧
                (q * inject_Z n == inject_Z h)%Q).
Proof.
  intros Hh Hm h n. split; [|split].
  - unfold Stats.get_stats. by simplify_map_eq.
  - intros Hn. rewrite get_stats_lookup_hit_rate. fold n. rewrite Hn. done.
  - intros Hn. rewrite get_stats_lookup_hit_rate. fold n h.
    destruct (Z.ltb_spec 0 n) as [Hpos|Hle]; [|lia].
    eexists. split; [done|]. split; [reflexivity|].
    rewrite Qmult_comm. apply Qmult_div_r, inject_Z_nonzero, Hn.
Qed.

(** The other entries of the report. *)
Lemma get_stats_counts self lc :
  Stats.get_stats self lc !! "memory_hits" = Some (Stats.PyInt (memory_hits (stats self))) ∧
  Stats.get_stats self lc !! "file_hits" = Some (Stats.PyInt (file_hits (stats self))) ∧
  Stats.get_stats self lc !! "redis_hits" = Some (Stats.PyInt (redis_hits (stats self))) ∧
  Stats.get_stats self lc !! "memory_cache_size" =
    Some (Stats.PyInt (Z.of_nat (size (memory_cache self)))) ∧
  Stats.get_stats self lc !! "file_cache_size" =
    Some (Stats.PyInt (Stats._get_file_cache_size self)).
Proof. unfold Stats.get_stats. repeat split; by simplify_map_eq. Qed.

(** Whatever the service, the entry ["redis_cache_size"] is the coroutine
    object itself; awaiting it would give the number of keys. *)
Lemma get_stats_redis_size_unawaited self lc :
  ∃ body, Stats.get_stats self lc !! "redis_cache_size" = Some (Stats.PyCoroutine body) ∧
          body tt = Stats.PyInt (Stats._get_redis_size_body self).
Proof. eexists. rewrite get_stats_lookup_redis. split; done. Qed.

End StatsFacts.

Lemma get_stats_hit_rate_witness :
  (0 ≤ hits (stats Samples.with_redis) ∧ 0 ≤ misses (stats Samples.with_redis)) ∧
  Stats.get_stats Samples.with_redis (Stats.PyInt 0) !! "total_requests" =
    Some (Stats.PyInt 4) ∧
  ∃ q, Stats.get_stats Samples.with_redis (Stats.PyInt 0) !! "hit_rate" =
         Some (Stats.PyFloat q) ∧ (q == 3 # 4)%Q.
Proof.
  split; [simpl; lia|].
  destruct (get_stats_hit_rate Samples.with_redis (Stats.PyInt 0))
    as (Htotal & _ & Hrate); [simpl; lia | simpl; lia |].
  split; [exact Htotal|].
  destruct Hrate as (q & Hq & Heq & _); [simpl; lia|].
  exists q. split; [exact Hq|]. rewrite Heq. reflexivity.
Defined.

Example hit_rate_when_idle :
  Stats.get_stats Samples.fresh (Stats.PyInt 0) !! "hit_rate" = Some (Stats.PyInt 0).
Proof. by rewrite get_stats_lookup_hit_rate. Qed.

(** C6: with a reachable Redis that holds two keys, the report's
    ["redis_cache_size"] is not the integer 2 but the coroutine object that
    [_get_redis_size] returns un-awaited; only awaiting it yields 2. *)
Theorem get_stats_redis_size_at_sample :
  ∃ v, Stats.get_stats Samples.with_redis (Stats.PyInt 0) !! "redis_cache_size" = Some v ∧
       Stats.is_int v = false ∧
       Stats.await v = Stats.PyInt 2.
Proof.
  eexists. rewrite get_stats_lookup_redis. split; [done|]. split; [done|].
  vm_compute. reflexivity.
Qed.

(** ** Health checks *)

Section HealthFacts.
Context {V : Type}.
Implicit Types self : CacheService V.

(** The file probe succeeds exactly when the cache directory exists and is
    writable. *)
Lemma check_file_system_true self :
  (Health._check_file_system self).2 = true ↔
  ∃ d, cache_dir self = Some d ∧ FS.writable d = true.
Proof.
  unfold Health._check_file_system, FS.write_file.
  destruct (cache_dir self) as [d|] eqn:Hd; simpl.
  - destruct (FS.writable d) eqn:Hw; simpl.
    + rewrite lookup_insert_eq. simpl. split; [eauto|done].
    + split; [done|]. intros (d' & Heq & Hw'). congruence.
  - split; [done|]. by intros (d' & ? & _).
Qed.

(** The probes leave the Redis handle alone. *)
Lemma check_file_system_redis self :
  redis (Health._check_file_system self).1 = redis self.
Proof.
  unfold Health._check_file_system.
  destruct (FS.write_file _ _ _) as [d1|]; [|done].
  by destruct (FS.remove _ _).
Qed.

Lemma check_redis_true self :
  Health._check_redis self = true ↔ ∃ r, redis self = Some r ∧ Redis.up r = true.
Proof.
  unfold Health._check_redis, Redis.ping.
  destruct (redis self) as [r|]; simpl.
  - destruct (Redis.up r) eqn:Hup; simpl.
    + split; [eauto|done].
    + split; [done|]. intros (r' & Heq & Hup'). congruence.
  - split; [done|]. by intros (r' & ? & _).
Qed.

(** C7: [health_check] always reports the memory tier healthy; a Redis that
    is not configured or does not answer is reported unhealthy, as a plain
    [false]; without Redis and with a cache directory that accepts the
    sentinel file the report is [{memory: True, file: True, redis: False}]. *)
Theorem health_check_report self :
  let report := (Health.health_check self).2 in
  Health.memory report = true ∧
  (redis self = None → Health.redis_ok report = false) ∧
  (∀ r, redis self = Some r → Redis.up r = false → Health.redis_ok report = false) ∧
  (redis self = None →
   (∃ d, cache_dir self = Some d ∧ FS.writable d = true) →
   report = Health.Status true true false).
Proof.
  unfold Health.health_check.
  destruct (Health._check_file_system self) as [self1 file_ok] eqn:Hfs. simpl.
  assert (redis self1 = redis self) as Hredis.
  { by rewrite <-(check_file_system_redis self), Hfs. }
  assert (∀ b, Health._check_redis self1 = b ↔ Health._check_redis self = b) as Hsame.
  { intros b. unfold Health._check_redis. by rewrite Hredis. }
  split; [done|]. split; [|split].
  - intros Hnone. apply Hsame. unfold Health._check_redis. by rewrite Hnone.
  - intros r Hr Hdown. apply Hsame. unfold Health._check_redis, Redis.ping.
    by rewrite Hr, Hdown.
  - intros Hnone Hdir.
    apply check_file_system_true in Hdir. rewrite Hfs in Hdir. simpl in Hdir.
    subst file_ok. f_equal. apply Hsame. unfold Health._check_redis. by rewrite Hnone.
Qed.

End HealthFacts.

Lemma health_check_report_witness :
  (redis Samples.fresh = None ∧
   ∃ d, cache_dir Samples.fresh = Some d ∧ FS.writable d = true) ∧
  (Health.health_check Samples.fresh).2 = Health.Status true true false.
Proof.
  assert (∃ d, cache_dir Samples.fresh = Some d ∧ FS.writable d = true) as Hdir.
  { eexists. split; reflexivity. }
  split; [split; [reflexivity | exact Hdir]|].
  destruct (health_check_report Samples.fresh) as (_ & _ & _ & Hscenario).
  apply Hscenario; [reflexivity | exact Hdir].
Defined.

Example health_check_read_only :
  (Health.health_check Samples.read_only).2 = Health.Status true false false.
Proof. reflexivity. Qed.

Example health_check_redis_down :
  (Health.health_check Samples.redis_down).2 = Health.Status true true false.
Proof. reflexivity. Qed.

(** ** Key and namespace enumeration *)

Section MapM.
Context {A B : Type} (f : A → result B).

Lemma result_mapM_raise l x :
  x ∈ l → (∃ e, f x = Raise e) → ∃ e, result_mapM f l = Raise e.
Proof.
  intros Hx [e He]. induction l as [|a l IH]; [by apply elem_of_nil in Hx|].
  simpl. apply elem_of_cons in Hx as [<-|Hx].
  - rewrite He. eauto.
  - destruct (f a); [|eauto].
    destruct (IH Hx) as [e' ->]. eauto.
Qed.

Lemma result_mapM_ok l ys :
  result_mapM f l = Ok ys → ∀ y, y ∈ ys ↔ ∃ x, x ∈ l ∧ f x = Ok y.
Proof.
  revert ys. induction l as [|a l IH]; intros ys Hl y; simpl in Hl.
  - injection Hl as <-. split; [by intros ?%elem_of_nil|].
    by intros (x & ?%elem_of_nil & _).
  - destruct (f a) as [b|] eqn:Ha; [|done].
    destruct (result_mapM f l) as [ys'|] eqn:Hl'; [|done].
    injection Hl as <-. rewrite elem_of_cons, (IH ys' eq_refl y). split.
    + intros [->|(x & Hx & Hfx)]; [exists a|exists x]; rewrite elem_of_cons; eauto.
    + intros (x & Hx & Hfx). apply elem_of_cons in Hx as [->|Hx]; [|eauto].
      left. congruence.
Qed.

End MapM.

Section KeysFacts.
Context {V : Type}.
Variable redis_match fn_match : string → string → bool.
Implicit Types self : CacheService V.

Lemma sorted_list_elem (keys : gset string) x : x ∈ Keys.sorted_list keys ↔ x ∈ keys.
Proof.
  unfold Keys.sorted_list. by rewrite merge_sort_Permutation, elem_of_elements.
Qed.

Lemma sorted_list_sorted (keys : gset string) :
  StronglySorted String.le (Keys.sorted_list keys).
Proof. apply StronglySorted_merge_sort; apply _. Qed.

Lemma sorted_list_NoDup (keys : gset string) : NoDup (Keys.sorted_list keys).
Proof.
  unfold Keys.sorted_list. rewrite merge_sort_Permutation. apply NoDup_elements.
Qed.

(** Whatever happens, the list [get_keys] returns is sorted and without
    duplicates. *)
Lemma get_keys_sorted self pattern namespace :
  StronglySorted String.le (Keys.get_keys redis_match fn_match self pattern namespace) ∧
  NoDup (Keys.get_keys redis_match fn_match self pattern namespace).
Proof.
  unfold Keys.get_keys.
  destruct (Keys.get_keys_set _ _ _ _ _) as [keys|e]; simpl.
  - split; [apply sorted_list_sorted | apply sorted_list_NoDup].
  - split; constructor.
Qed.

(** When no tier raises, the result holds exactly the raw keys each tier
    selects: memory by prefix, Redis by its [KEYS] matcher, the file tier by
    [glob]. *)
Lemma get_keys_elem self pattern namespace keys x :
  Keys.get_keys_set redis_match fn_match self pattern namespace = Ok keys →
  let p := Keys.qualify pattern namespace in
  x ∈ Keys.get_keys redis_match fn_match self pattern namespace ↔
    (∃ k, k ∈ dom (memory_cache self) ∧ Keys.memory_selects p k = true ∧
          Keys.strip_namespace k k = Ok x) ∨
    (∃ r k, redis self = Some r ∧ k ∈ dom (Redis.store r) ∧
            redis_match p k = true ∧
            (PyStr.decode k ≫= λ d, Keys.strip_namespace d d) = Ok x) ∨
    (∃ d f, cache_dir self = Some d ∧ f ∈ dom (FS.files d) ∧
            fn_match (p +:+ ".cache") f = true ∧
            Keys.strip_namespace f (PyStr.splitext_stem f) = Ok x).
Proof.
  intros Hset p. unfold Keys.get_keys. rewrite Hset. simpl.
  rewrite sorted_list_elem.
  unfold Keys.get_keys_set in Hset. fold p in Hset.
  destruct (Keys.memory_keys self p) as [mk|] eqn:Hmk; [|done]. simpl in Hset.
  destruct (Keys.redis_keys redis_match self p) as [rk|] eqn:Hrk; [|done]. simpl in Hset.
  destruct (Keys.file_keys fn_match self p) as [fk|] eqn:Hfk; [|done]. simpl in Hset.
  injection Hset as <-.
  rewrite !elem_of_union, !elem_of_list_to_set.
  rewrite (result_mapM_ok _ _ _ Hmk x).
  rewrite (result_mapM_ok _ _ _ Hfk x).
  assert (x ∈ rk ↔
    ∃ r k, redis self = Some r ∧ k ∈ dom (Redis.store r) ∧ redis_match p k = true ∧
           (PyStr.decode k ≫= λ d, Keys.strip_namespace d d) = Ok x) as ->.
  { unfold Keys.redis_keys in Hrk. destruct (redis self) as [r|].
    - unfold Redis.keys in Hrk. destruct (Redis.up r); [|done]. simpl in Hrk.
      rewrite (result_mapM_ok _ _ _ Hrk x). split.
      + intros (k & Hk & Hx). apply list_elem_of_filter in Hk as [Hm Hk].
        apply elem_of_elements in Hk. eauto 10.
      + intros (r' & k & [= <-] & Hk & Hm & Hx). exists k. split; [|done].
        apply list_elem_of_filter. by rewrite elem_of_elements.
    - injection Hrk as <-. split; [by intros ?%elem_of_nil|].
      by intros (? & ? & ? & _). }
  assert (∀ f, f ∈ Keys.glob_cache_dir fn_match self p ↔
    ∃ d, cache_dir self = Some d ∧ f ∈ dom (FS.files d) ∧
         fn_match (p +:+ ".cache") f = true) as Hglob.
  { intros f. unfold Keys.glob_cache_dir. destruct (cache_dir self) as [d|].
    - rewrite list_elem_of_filter, elem_of_elements. split.
      + intros [? ?]. eauto.
      + by intros (d' & [= <-] & ? & ?).
    - split; [by intros ?%elem_of_nil|]. by intros (? & ? & _). }
  split.
  - intros [[(k & Hk & Hx)|Hr]|(f & Hf & Hx)].
    + left. apply list_elem_of_filter in Hk as [Hsel Hk].
      apply elem_of_elements in Hk. eauto.
    + right; left. exact Hr.
    + right; right. apply Hglob in Hf as (d & Hd & Hf & Hm). eauto 10.
  - intros [(k & Hk & Hsel & Hx)|[Hr|(d & f & Hd & Hf & Hm & Hx)]].
    + left; left. exists k. split; [|done].
      apply list_elem_of_filter. by rewrite elem_of_elements.
    + left; right. exact Hr.
    + right. exists f. split; [|done]. apply Hglob. eauto.
Qed.

(** Keys held in memory never make the enumeration fail: a key with a colon
    splits in two. *)
Lemma split1_contains c s :
  PyStr.contains c s = true → ∃ a b, PyStr.split1 c s = [a; b].
Proof.
  induction s as [|x s IH]; simpl; [done|].
  destruct (decide (x = c)); [eauto|].
  intros Hc. destruct (IH Hc) as (a & b & ->). eauto.
Qed.

Lemma strip_namespace_self k : ∃ x, Keys.strip_namespace k k = Ok x.
Proof.
  unfold Keys.strip_namespace.
  destruct (PyStr.contains PyStr.colon k) eqn:Hc; [|eauto].
  destruct (split1_contains _ _ Hc) as (a & b & ->). eauto.
Qed.

Lemma result_mapM_total {A B} (f : A → result B) l :
  (∀ x, ∃ y, f x = Ok y) → ∃ ys, result_mapM f l = Ok ys.
Proof.
  intros Hf. induction l as [|x l [ys IH]]; simpl; [eauto|].
  destruct (Hf x) as [y ->]. rewrite IH. eauto.
Qed.

Lemma memory_keys_ok self pattern : ∃ ks, Keys.memory_keys self pattern = Ok ks.
Proof. apply result_mapM_total, strip_namespace_self. Qed.

Lemma get_keys_set_raise self pattern namespace :
  let p := Keys.qualify pattern namespace in
  (∃ e, Keys.memory_keys self p = Raise e) ∨
  (∃ e, Keys.redis_keys redis_match self p = Raise e) ∨
  (∃ e, Keys.file_keys fn_match self p = Raise e) →
  Keys.get_keys redis_match fn_match self pattern namespace = [].
Proof.
  intros p H. unfold Keys.get_keys, Keys.get_keys_set. fold p.
  destruct (Keys.memory_keys self p) as [mk|]; simpl; [|done].
  destruct (Keys.redis_keys redis_match self p) as [rk|]; simpl; [|done].
  destruct (Keys.file_keys fn_match self p) as [fk|]; simpl; [|done].
  destruct H as [[e ?]|[[e ?]|[e ?]]]; done.
Qed.

Lemma get_namespaces_set_raise self :
  (∃ e, Keys.memory_namespaces self = Raise e) ∨
  (∃ e, Keys.redis_namespaces redis_match self = Raise e) ∨
  (∃ e, Keys.file_namespaces self = Raise e) →
  Keys.get_namespaces redis_match self = [].
Proof.
  intros H. unfold Keys.get_namespaces, Keys.get_namespaces_set.
  destruct (Keys.memory_namespaces self) as [mk|]; simpl; [|done].
  destruct (Keys.redis_namespaces redis_match self) as [rk|]; simpl; [|done].
  destruct (Keys.file_namespaces self) as [fk|]; simpl; [|done].
  destruct H as [[e ?]|[[e ?]|[e ?]]]; done.
Qed.

Lemma decode_invalid k : PyStr.utf8_valid k = false → PyStr.decode k = Raise UnicodeDecodeError.
Proof. unfold PyStr.decode. by intros ->. Qed.

(** C10: [get_keys] and [get_namespaces] return a list in every case: when
    the [try] block raises, whatever the exception, the result is the empty
    list; so it is when Redis does not answer, when a key of Redis is not
    UTF-8, and when the cache directory cannot be listed. *)
Theorem enumeration_swallows_failures self pattern namespace :
  (∀ e, Keys.get_keys_set redis_match fn_match self pattern namespace = Raise e →
        Keys.get_keys redis_match fn_match self pattern namespace = []) ∧
  (∀ e, Keys.get_namespaces_set redis_match self = Raise e →
        Keys.get_namespaces redis_match self = []) ∧
  (∀ r, redis self = Some r → Redis.up r = false →
        Keys.get_keys redis_match fn_match self pattern namespace = [] ∧
        Keys.get_namespaces redis_match self = []) ∧
  (∀ r k, redis self = Some r → Redis.up r = true →
          k ∈ dom (Redis.store r) → PyStr.utf8_valid k = false →
          (redis_match (Keys.qualify pattern namespace) k = true →
           Keys.get_keys redis_match fn_match self pattern namespace = []) ∧
          (redis_match "*" k = true → Keys.get_namespaces redis_match self = [])) ∧
  (cache_dir self = None → Keys.get_namespaces redis_match self = []).
Proof.
  split; [|split; [|split; [|split]]].
  - intros e He. unfold Keys.get_keys. by rewrite He.
  - intros e He. unfold Keys.get_namespaces. by rewrite He.
  - intros r Hr Hdown. split.
    + apply get_keys_set_raise. right; left. exists ConnectionError.
      unfold Keys.redis_keys, Redis.keys. by rewrite Hr, Hdown.
    + apply get_namespaces_set_raise. right; left. exists ConnectionError.
      unfold Keys.redis_namespaces, Redis.keys. by rewrite Hr, Hdown.
  - intros r k Hr Hup Hk Hbad. split; intros Hm.
    + apply get_keys_set_raise. right; left.
      unfold Keys.redis_keys, Redis.keys. rewrite Hr, Hup. simpl.
      apply (result_mapM_raise _ _ k).
      * apply list_elem_of_filter. by rewrite elem_of_elements.
      * exists UnicodeDecodeError. by rewrite decode_invalid.
    + apply get_namespaces_set_raise. right; left.
      unfold Keys.redis_namespaces, Redis.keys. rewrite Hr, Hup. simpl.
      match goal with
      | |- context [result_mapM ?f ?l] =>
          destruct (result_mapM_raise f l k) as [e He]
      end.
      * apply list_elem_of_filter. by rewrite elem_of_elements.
      * exists UnicodeDecodeError. by rewrite decode_invalid.
      * exists e. by rewrite He.
  - intros Hdir. apply get_namespaces_set_raise. right; right.
    exists FileNotFoundError. unfold Keys.file_namespaces. by rewrite Hdir.
Qed.

End KeysFacts.

Lemma enumeration_swallows_failures_witness :
  (redis Samples.redis_down = Some (Redis.Client false ∅) ∧
   Redis.up (Redis.Client false ∅) = false) ∧
  Keys.get_keys Glob.glob_match Glob.glob_match Samples.redis_down "*" None = [] ∧
  Keys.get_namespaces Glob.glob_match Samples.redis_down = [].
Proof.
  split; [split; reflexivity|].
  destruct (enumeration_swallows_failures Glob.glob_match Glob.glob_match
              Samples.redis_down "*" None) as (_ & _ & Hdown & _).
  apply (Hdown (Redis.Client false ∅)); reflexivity.
Defined.

Example get_keys_bad_redis_key :
  Keys.get_keys Glob.glob_match Glob.glob_match Samples.bad_redis_key "*" None = [] ∧
  Keys.get_namespaces Glob.glob_match Samples.bad_redis_key = [].
Proof. split; vm_compute; reflexivity. Qed.

Example get_namespaces_no_cache_dir :
  Keys.get_keys Glob.glob_match Glob.glob_match Samples.no_cache_dir "*" None = ["a"] ∧
  Keys.get_namespaces Glob.glob_match Samples.no_cache_dir = [].
Proof. split; vm_compute; reflexivity. Qed.

Example get_keys_all_tiers :
  Keys.get_keys Glob.glob_match Glob.glob_match Samples.with_redis "*" (Some "factcheck")
  = ["claim:123"; "claim:456"].
Proof. vm_compute. reflexivity. Qed.

Example glob_match_ex :
  Glob.glob_match "*foo" "xfoo" = true ∧ Glob.glob_match "*foo" "foobar" = false ∧
  Glob.glob_match "xf" "xfoo" = false ∧ Glob.glob_match "a?c*" "abcd" = true.
Proof. repeat split. Qed.

(** C8: on the pattern ["*foo"] the key ["xfoo"] is returned when it lives in
    the file tier or in Redis, which match the pattern as a glob, but not
    when it lives in memory, where the test is
    [k.startswith(pattern.replace('*', ''))]: the memory tier's matching keys
    are missing from the union. *)
Theorem get_keys_memory_misses_glob_match :
  Glob.glob_match "*foo" "xfoo" = true ∧
  Keys.get_keys Glob.glob_match Glob.glob_match Samples.in_memory "*foo" None = [] ∧
  Keys.get_keys Glob.glob_match Glob.glob_match Samples.in_files "*foo" None = ["xfoo"] ∧
  Keys.get_keys Glob.glob_match Glob.glob_match Samples.in_redis "*foo" None = ["xfoo"].
Proof. repeat split; vm_compute; reflexivity. Qed.

(** Conversely, a pattern without a star selects every memory key it is a
    prefix of, while Redis and the file tier only select an exact match. *)
Example get_keys_memory_prefix :
  Glob.glob_match "xf" "xfoo" = false ∧
  Keys.get_keys Glob.glob_match Glob.glob_match Samples.in_memory "xf" None = ["xfoo"] ∧
  Keys.get_keys Glob.glob_match Glob.glob_match Samples.in_redis "xf" None = [].
Proof. repeat split; vm_compute; reflexivity. Qed.

(** ** Snapshot names and their order *)

Section NameOrder.
Import PyStr Backup.

Lemma app_cons a s t : String a s +:+ t = String a (s +:+ t).
Proof. reflexivity. Qed.

Lemma app_empty_r s : s +:+ "" = s.
Proof. induction s as [|a s IH]; [done|]. by rewrite app_cons, IH. Qed.

Lemma length_app s t : String.length (s +:+ t) = (String.length s + String.length t)%nat.
Proof. induction s as [|a s IH]; [done|]. rewrite app_cons. simpl. by rewrite IH. Qed.

Lemma compare_refl s : (s ?= s)%string = Eq.
Proof.
  induction s as [|a s IH]; [done|]. simpl.
  unfold Ascii.compare. by rewrite N.compare_refl.
Qed.

Lemma compare_app_same p a b : (p +:+ a ?= p +:+ b)%string = (a ?= b)%string.
Proof.
  induction p as [|c p IH]; [done|]. rewrite !app_cons. simpl.
  unfold Ascii.compare. by rewrite N.compare_refl.
Qed.

Lemma compare_app a1 a2 b1 b2 :
  String.length a1 = String.length a2 →
  (a1 +:+ b1 ?= a2 +:+ b2)%string = lexc (a1 ?= a2)%string (b1 ?= b2)%string.
Proof.
  revert a2. induction a1 as [|c1 a1 IH]; intros [|c2 a2] Hlen; try done.
  rewrite !app_cons. simpl. destruct (c1 ?= c2)%char; [|done..].
  apply IH. by injection Hlen.
Qed.

Lemma lexc_assoc c1 c2 c3 : lexc c1 (lexc c2 c3) = lexc (lexc c1 c2) c3.
Proof. by destruct c1. Qed.

Lemma lexc_Eq_r c : lexc c Eq = c.
Proof. by destruct c. Qed.

(** Positional notation: comparing the leading part first and the last
    digit next is comparing the numbers. *)
Lemma lexc_radix (b a1 d1 a2 d2 : N) :
  (d1 < b)%N → (d2 < b)%N →
  lexc (a1 ?= a2)%N (d1 ?= d2)%N = (a1 * b + d1 ?= a2 * b + d2)%N.
Proof.
  intros H1 H2. symmetry.
  destruct (N.compare_spec a1 a2) as [->|Hlt|Hgt]; simpl.
  - destruct (N.compare_spec d1 d2) as [->|Hd|Hd].
    + apply N.compare_refl.
    + apply N.compare_lt_iff. lia.
    + apply N.compare_gt_iff. lia.
  - apply N.compare_lt_iff. nia.
  - apply N.compare_gt_iff. nia.
Qed.

Lemma digit_compare a b :
  (a < 10)%N → (b < 10)%N → (digit a ?= digit b)%char = (a ?= b)%N.
Proof.
  intros Ha Hb. unfold Ascii.compare, digit.
  rewrite !N_ascii_embedding by lia.
  destruct (N.compare_spec a b) as [->|Hlt|Hgt].
  - apply N.compare_refl.
  - apply N.compare_lt_iff. lia.
  - apply N.compare_gt_iff. lia.
Qed.

Lemma pad_length w n : String.length (pad w n) = w.
Proof.
  revert n. induction w as [|w IH]; intros n; [done|].
  simpl. rewrite length_app, IH. simpl. lia.
Qed.

(** Zero-padded numbers of the same width compare as strings the way they
    compare as numbers. *)
Lemma pad_compare w n m :
  (n < 10 ^ N.of_nat w)%N → (m < 10 ^ N.of_nat w)%N →
  (pad w n ?= pad w m)%string = (n ?= m)%N.
Proof.
  revert n m. induction w as [|w IH]; intros n m Hn Hm.
  - simpl in *. assert (n = 0%N) as -> by lia. assert (m = 0%N) as -> by lia. done.
  - rewrite Nat2N.inj_succ, N.pow_succ_r' in Hn, Hm.
    simpl. rewrite compare_app by (by rewrite !pad_length).
    rewrite IH by (apply N.Div0.div_lt_upper_bound; lia).
    simpl. rewrite digit_compare by (apply N.mod_lt; lia).
    assert ((match (n mod 10 ?= m mod 10)%N with Eq => Eq | Lt => Lt | Gt => Gt end)
            = (n mod 10 ?= m mod 10)%N) as -> by (by destruct (_ ?= _)%N).
    rewrite (lexc_radix 10) by (apply N.mod_lt; lia).
    rewrite (N.mul_comm (n / 10)), (N.mul_comm (m / 10)).
    by rewrite <-!N.div_mod by lia.
Qed.

Lemma strftime_length t : String.length (strftime t) = 15%nat.
Proof. unfold strftime. rewrite !length_app, !pad_length. done. Qed.

Lemma strftime_compare t1 t2 :
  valid_datetime t1 → valid_datetime t2 →
  (strftime t1 ?= strftime t2)%string = (chrono t1 ?= chrono t2)%N.
Proof.
  intros (Hy1 & Hm1 & Hd1 & Hh1 & Hi1 & Hs1) (Hy2 & Hm2 & Hd2 & Hh2 & Hi2 & Hs2).
  unfold strftime, chrono.
  rewrite compare_app by (by rewrite !pad_length).
  rewrite compare_app by (by rewrite !pad_length).
  rewrite compare_app by (by rewrite !pad_length).
  rewrite compare_app_same.
  rewrite compare_app by (by rewrite !pad_length).
  rewrite compare_app by (by rewrite !pad_length).
  rewrite !pad_compare by (simpl; lia).
  rewrite !lexc_assoc.
  rewrite !(lexc_radix 100) by lia. done.
Qed.

(** A snapshot name is later in [sorted]'s order exactly when its timestamp
    is later on the calendar. *)
Lemma snapshot_name_le prefix suffix t1 t2 :
  valid_datetime t1 → valid_datetime t2 →
  String.le (prefix +:+ strftime t1 +:+ suffix) (prefix +:+ strftime t2 +:+ suffix)
  ↔ (chrono t1 ≤ chrono t2)%N.
Proof.
  intros H1 H2. unfold String.le, String.leb.
  rewrite compare_app_same, compare_app by (by rewrite !strftime_length).
  rewrite compare_refl, lexc_Eq_r, strftime_compare by done.
  unfold N.le. destruct (chrono t1 ?= chrono t2)%N; simpl; split; done.
Qed.

End NameOrder.

(** ** Which snapshot [restore] picks *)

Section Latest.
Context {V : Type}.
Import PyStr Backup.

Lemma sorted_last_max (l : list string) x :
  StronglySorted String.le l → last l = Some x → ∀ y, y ∈ l → String.le y x.
Proof.
  induction 1 as [|a l Hl IH Ha]; intros Hlast y Hy; [done|].
  destruct l as [|b l].
  - injection Hlast as <-. apply list_elem_of_singleton in Hy as ->. done.
  - change (last (a :: b :: l)) with (last (b :: l)) in Hlast.
    apply elem_of_cons in Hy as [->|Hy]; [|by apply IH].
    eapply Forall_forall; [exact Ha|]. by apply last_Some_elem_of.
Qed.

Lemma startswith_app prefix s : startswith (prefix +:+ s) prefix = true.
Proof.
  unfold startswith. induction prefix as [|a p IH]; [by destruct s|].
  rewrite app_cons. simpl. by destruct (Ascii.ascii_dec a a).
Qed.

(** The selection [sorted(...)[-1]] on a directory whose names with the given
    prefix are snapshot names: it returns the name with the latest
    timestamp. *)
Lemma latest_most_recent prefix suffix (es : gmap string (entry V))
    (ts : list datetime) :
  let name t := prefix +:+ strftime t +:+ suffix in
  ts ≠ [] →
  Forall valid_datetime ts →
  Forall (λ f, f ∈ name <$> ts)
    (filter (λ f, startswith f prefix = true) (elements (dom es))) →
  Forall (λ t, name t ∈ dom es) ts →
  ∃ t, t ∈ ts ∧ latest prefix (Some es) = Ok (name t) ∧
       ∀ t', t' ∈ ts → (chrono t' ≤ chrono t)%N.
Proof.
  intros name Hne Hvalid Hsnaps Hpresent.
  unfold latest. simpl.
  set (snaps := filter (λ f, startswith f prefix = true) (elements (dom es))) in *.
  assert (∀ t, t ∈ ts → name t ∈ merge_sort String.le snaps) as Hin.
  { intros t Ht. rewrite merge_sort_Permutation. apply list_elem_of_filter. split.
    - apply startswith_app.
    - apply elem_of_elements. by eapply Forall_forall in Hpresent. }
  destruct (last (merge_sort String.le snaps)) as [x|] eqn:Hlast.
  - assert (x ∈ snaps) as Hx.
    { rewrite <-(merge_sort_Permutation String.le). by apply last_Some_elem_of. }
    eapply Forall_forall in Hsnaps; [|exact Hx].
    apply list_elem_of_fmap in Hsnaps as (t & -> & Ht).
    exists t. split; [done|]. unfold index_last. rewrite Hlast. split; [done|].
    intros t' Ht'.
    apply (snapshot_name_le prefix suffix).
    + by eapply Forall_forall in Hvalid.
    + by eapply Forall_forall in Hvalid.
    + eapply sorted_last_max; [|exact Hlast|by apply Hin].
      apply StronglySorted_merge_sort; apply _.
  - destruct ts as [|t ts]; [done|].
    apply last_None in Hlast. specialize (Hin t (list_elem_of_here _ _)).
    rewrite Hlast in Hin. by apply elem_of_nil in Hin.
Qed.

(** Distinct calendar positions have distinct [chrono] values. *)
Lemma chrono_inj t1 t2 :
  valid_datetime t1 → valid_datetime t2 → chrono t1 = chrono t2 → t1 = t2.
Proof.
  destruct t1 as [y1 m1 d1 h1 i1 s1], t2 as [y2 m2 d2 h2 i2 s2].
  unfold valid_datetime, chrono. simpl.
  intros (? & ? & ? & ? & ? & ?) (? & ? & ? & ? & ? & ?) Heq.
  assert (y1 = y2 ∧ m1 = m2 ∧ d1 = d2 ∧ h1 = h2 ∧ i1 = i2 ∧ s1 = s2) as
    (-> & -> & -> & -> & -> & ->) by lia.
  done.
Qed.

End Latest.

(** ** The steps of [restore] on the cache directory *)

Section RestoreSteps.
Context {V : Type}.
Import Backup.
Implicit Types self : CacheService V.

Lemma with_memory_id self : with_memory self (memory_cache self) = self.
Proof. by destruct self. Qed.

Lemma substring_prefix n s : ∃ rest, s = String.substring 0 n s +:+ rest.
Proof.
  revert n. induction s as [|a s IH]; intros [|n].
  - by exists "".
  - by exists "".
  - by exists (String a s).
  - destruct (IH n) as [rest Hrest]. exists rest. simpl.
    rewrite app_cons. by f_equal.
Qed.

(** What a copy that met errors leaves at the destination: entries of the
    source, whole or cut short. *)
Lemma copied_files_lookup (fault : copy_fault) files name content :
  copied_files fault files !! name = Some content →
  ∃ rest, files !! name = Some (content +:+ rest).
Proof.
  unfold copied_files. rewrite map_lookup_imap.
  destruct (files !! name) as [full|]; simpl; [|done].
  destruct (fault !! name) as [[n|]|]; intros Hc; try done.
  - injection Hc as <-. destruct (substring_prefix n full) as [rest Hrest].
    exists rest. by rewrite <-Hrest.
  - injection Hc as <-. exists "". by rewrite app_empty_r.
Qed.

Lemma load_pickle_Ok (bd : backup_dir V) name m :
  load_pickle bd name = Ok m ↔ entry_at bd name = Some (Pickle m).
Proof.
  unfold load_pickle. destruct (entry_at bd name) as [[]|]; split; intros H; congruence.
Qed.

Lemma rmtree_Ok fault d d' :
  rmtree fault d = (d', Ok tt) →
  d' = None ∧ fault = None ∧
  ∃ d0, d = Some d0 ∧ (FS.writable d0 = true ∨ FS.files d0 = ∅).
Proof.
  unfold rmtree. destruct d as [d0|]; [|done].
  destruct (FS.writable d0) eqn:Hw; simpl.
  - destruct fault as [[removed e]|]; [done|]. intros [= <-]. eauto 10.
  - case_bool_decide as Hempty; [|done].
    destruct fault as [[removed e]|]; [done|]. intros [= <-]. eauto 10.
Qed.

(** When [rmtree] raises there was no directory to remove, or the directory
    is still there with some of its entries. *)
Lemma rmtree_Raise fault d d' e :
  rmtree fault d = (d', Raise e) →
  (d = None ∧ d' = None ∧ e = FileNotFoundError) ∨
  (∃ d0 d1, d = Some d0 ∧ d' = Some d1 ∧
            FS.writable d1 = FS.writable d0 ∧ FS.files d1 ⊆ FS.files d0).
Proof.
  unfold rmtree. destruct d as [d0|]; [|intros [= <- <-]; by left].
  intros Hrm. right. exists d0.
  destruct (FS.writable d0 || bool_decide (FS.files d0 = ∅)).
  - destruct fault as [[removed e1]|]; [|done].
    injection Hrm as <- <-. eexists. split; [done|]. split; [done|]. simpl.
    split; [done|]. apply map_filter_subseteq.
  - injection Hrm as <- <-. by exists d0.
Qed.

Lemma copytree_in_Ok (bd : backup_dir V) name dst fault d' :
  copytree_in bd name dst fault = (d', Ok tt) →
  ∃ d, entry_at bd name = Some (Tree d) ∧ d' = Some d ∧ dst = None ∧
       fault = None.
Proof.
  unfold copytree_in. destruct (entry_at bd name) as [[| |d]|]; try done.
  destruct dst; [done|]. destruct fault; [done|]. intros [= <-]. eauto.
Qed.

(** When [copytree] raises on a destination that does not exist, either
    nothing was created because the source is no directory, or the
    destination holds what could be copied. *)
Lemma copytree_in_Raise (bd : backup_dir V) name fault d' e :
  copytree_in bd name None fault = (d', Raise e) →
  (d' = None ∧ ∀ d, entry_at bd name ≠ Some (Tree d)) ∨
  (∃ d d1, entry_at bd name = Some (Tree d) ∧ d' = Some d1 ∧ e = ShutilError ∧
           FS.writable d1 = FS.writable d ∧
           ∀ f content, FS.files d1 !! f = Some content →
                        ∃ rest, FS.files d !! f = Some (content +:+ rest)).
Proof.
  unfold copytree_in. destruct (entry_at bd name) as [[| |d]|].
  - intros [= <- <-]. by left.
  - intros [= <- <-]. by left.
  - destruct fault as [failed|]; [|done]. intros [= <- <-]. right.
    exists d. eexists. split; [done|]. split; [done|]. split; [done|].
    split; [done|]. simpl. intros f content. apply copied_files_lookup.
  - intros [= <- <-]. by left.
Qed.

(** A successful [restore] installs the selected snapshots. *)
Lemma restore_ok self bd io self' :
  restore self bd io = (self', Ok tt) →
  ∃ mn m fn d,
    latest "memory_cache_" bd = Ok mn ∧ entry_at bd mn = Some (Pickle m) ∧
    latest "file_cache_" bd = Ok fn ∧ entry_at bd fn = Some (Tree d) ∧
    self' = Service (stats self) m (Some d) (redis self).
Proof.
  unfold restore.
  destruct (latest "memory_cache_" bd) as [mn|] eqn:Hmn; [|done].
  destruct (load_pickle bd mn) as [m|] eqn:Hm; [|done].
  apply load_pickle_Ok in Hm.
  destruct (latest "file_cache_" bd) as [fn|] eqn:Hfn; [|done].
  destruct (rmtree _ _) as [gone [[]|]] eqn:Hrm; [|done].
  apply rmtree_Ok in Hrm as (-> & _).
  change (cache_dir (with_cache_dir _ None)) with (@None FS.dir).
  destruct (copytree_in bd fn None _) as [d' [[]|]] eqn:Hcp; [|done].
  apply copytree_in_Ok in Hcp as (d & Hd & -> & _).
  intros Hret. exists mn, m, fn, d. repeat (split; [done|]).
  simpl in Hret. destruct (redis self) eqn:Hr.
  - destruct (latest "redis_cache_" bd); simpl in Hret; [|done].
    injection Hret as <-. unfold with_cache_dir, with_memory. simpl. by rewrite Hr.
  - injection Hret as <-. unfold with_cache_dir, with_memory. simpl. by rewrite Hr.
Qed.

(** Without Redis and without errors of the file system, [restore] succeeds
    as soon as both selected snapshots are of the right kind and the cache
    directory can be removed. *)
Lemma restore_runs self (es : gmap string (entry V)) mn fn m d d0 :
  latest "memory_cache_" (Some es) = Ok mn → es !! mn = Some (Pickle m) →
  latest "file_cache_" (Some es) = Ok fn → es !! fn = Some (Tree d) →
  cache_dir self = Some d0 → FS.writable d0 = true → redis self = None →
  restore self (Some es) no_faults = (Service (stats self) m (Some d) None, Ok tt).
Proof.
  intros Hmn Hm Hfn Hd Hd0 Hw Hr. unfold restore. rewrite Hmn.
  unfold load_pickle. simpl. rewrite Hm, Hfn. unfold rmtree. simpl.
  rewrite Hd0, Hw. simpl. unfold copytree_in. simpl. rewrite Hd. simpl.
  rewrite Hr. unfold with_cache_dir, with_memory. simpl. by rewrite Hr.
Qed.

(** C9: among the memory snapshots of a backup directory, written at the
    datetimes [ts_mem], and among its file snapshots, written at [ts_file],
    [restore] selects the one of the latest datetime of each kind: a
    [restore] that succeeds has installed the contents of exactly these two,
    and it does succeed on a service without Redis when they are a pickle
    and a directory. *)
Theorem restore_selects_most_recent (es : gmap string (entry V))
    (ts_mem ts_file : list datetime) :
  ts_mem ≠ [] → ts_file ≠ [] →
  Forall valid_datetime ts_mem → Forall valid_datetime ts_file →
  Forall (λ f, f ∈ memory_backup_name <$> ts_mem)
    (filter (λ f, PyStr.startswith f "memory_cache_" = true) (elements (dom es))) →
  Forall (λ f, f ∈ file_backup_name <$> ts_file)
    (filter (λ f, PyStr.startswith f "file_cache_" = true) (elements (dom es))) →
  Forall (λ t, memory_backup_name t ∈ dom es) ts_mem →
  Forall (λ t, file_backup_name t ∈ dom es) ts_file →
  ∃ tm tf,
    (tm ∈ ts_mem ∧ ∀ t, t ∈ ts_mem → (chrono t ≤ chrono tm)%N) ∧
    (tf ∈ ts_file ∧ ∀ t, t ∈ ts_file → (chrono t ≤ chrono tf)%N) ∧
    latest "memory_cache_" (Some es) = Ok (memory_backup_name tm) ∧
    latest "file_cache_" (Some es) = Ok (file_backup_name tf) ∧
    (∀ self io self',
       restore self (Some es) io = (self', Ok tt) →
       es !! memory_backup_name tm = Some (Pickle (memory_cache self')) ∧
       ∃ d, es !! file_backup_name tf = Some (Tree d) ∧
            cache_dir self' = Some d) ∧
    (∀ self m d d0,
       es !! memory_backup_name tm = Some (Pickle m) →
       es !! file_backup_name tf = Some (Tree d) →
       cache_dir self = Some d0 → FS.writable d0 = true → redis self = None →
       restore self (Some es) no_faults
       = (Service (stats self) m (Some d) None, Ok tt)).
Proof.
  intros Hnem Hnef Hvm Hvf Hmem Hfile Hpm Hpf.
  assert (Forall (λ t, "file_cache_" +:+ strftime t +:+ "" ∈ dom es) ts_file)
    as Hpf'.
  { eapply Forall_impl; [exact Hpf|]. intros t Ht. by rewrite app_empty_r. }
  assert (Forall (λ f, f ∈ (λ t, "file_cache_" +:+ strftime t +:+ "") <$> ts_file)
            (filter (λ f, PyStr.startswith f "file_cache_" = true)
               (elements (dom es)))) as Hsf.
  { eapply Forall_impl; [exact Hfile|]. intros f Hf.
    apply list_elem_of_fmap in Hf as (t & -> & Ht).
    apply list_elem_of_fmap. exists t. by rewrite app_empty_r. }
  destruct (latest_most_recent "memory_cache_" ".pkl" es ts_mem Hnem Hvm Hmem Hpm)
    as (tm & Htm & Hlm & Hmaxm).
  destruct (latest_most_recent "file_cache_" "" es ts_file Hnef Hvf Hsf Hpf')
    as (tf & Htf & Hlf & Hmaxf).
  rewrite app_empty_r in Hlf.
  change ("memory_cache_" +:+ strftime tm +:+ ".pkl") with (memory_backup_name tm)
    in Hlm.
  change ("file_cache_" +:+ strftime tf) with (file_backup_name tf) in Hlf.
  exists tm, tf. do 4 (split; [done|]). split.
  - intros self io self' Hret.
    apply restore_ok in Hret as (mn & m & fn & d & Hmn & Hm & Hfn & Hd & ->).
    rewrite Hlm in Hmn. injection Hmn as <-.
    rewrite Hlf in Hfn. injection Hfn as <-.
    simpl in Hm, Hd. simpl. eauto.
  - intros self m d d0 Hm Hd Hd0 Hw Hr.
    by apply (restore_runs self es (memory_backup_name tm) (file_backup_name tf)
                m d d0).
Qed.

End RestoreSteps.

Lemma restore_selects_most_recent_witness :
  ([Samples.march_1; Samples.march_2] ≠ [] ∧
   [Samples.march_1] ≠ [] ∧
   Forall Backup.valid_datetime [Samples.march_1; Samples.march_2] ∧
   Forall Backup.valid_datetime [Samples.march_1] ∧
   Forall (λ f, f ∈ Backup.memory_backup_name <$> [Samples.march_1; Samples.march_2])
     (filter (λ f, PyStr.startswith f "memory_cache_" = true)
        (elements (dom Samples.uneven_backups))) ∧
   Forall (λ f, f ∈ Backup.file_backup_name <$> [Samples.march_1])
     (filter (λ f, PyStr.startswith f "file_cache_" = true)
        (elements (dom Samples.uneven_backups))) ∧
   Forall (λ t, Backup.memory_backup_name t ∈ dom Samples.uneven_backups)
     [Samples.march_1; Samples.march_2] ∧
   Forall (λ t, Backup.file_backup_name t ∈ dom Samples.uneven_backups)
     [Samples.march_1]) ∧
  ∃ tm tf,
    (tm ∈ [Samples.march_1; Samples.march_2] ∧
     ∀ t, t ∈ [Samples.march_1; Samples.march_2] →
          (Backup.chrono t ≤ Backup.chrono tm)%N) ∧
    (tf ∈ [Samples.march_1] ∧
     ∀ t, t ∈ [Samples.march_1] → (Backup.chrono t ≤ Backup.chrono tf)%N) ∧
    Backup.latest "memory_cache_" (Some Samples.uneven_backups)
    = Ok (Backup.memory_backup_name tm) ∧
    Backup.latest "file_cache_" (Some Samples.uneven_backups)
    = Ok (Backup.file_backup_name tf) ∧
    (∀ self io self',
       Backup.restore self (Some Samples.uneven_backups) io = (self', Ok tt) →
       Samples.uneven_backups !! Backup.memory_backup_name tm
       = Some (Backup.Pickle (memory_cache self')) ∧
       ∃ d, Samples.uneven_backups !! Backup.file_backup_name tf
            = Some (Backup.Tree d) ∧
            cache_dir self' = Some d) ∧
    (∀ self m d d0,
       Samples.uneven_backups !! Backup.memory_backup_name tm
       = Some (Backup.Pickle m) →
       Samples.uneven_backups !! Backup.file_backup_name tf
       = Some (Backup.Tree d) →
       cache_dir self = Some d0 → FS.writable d0 = true → redis self = None →
       Backup.restore self (Some Samples.uneven_backups) Backup.no_faults
       = (Service (stats self) m (Some d) None, Ok tt)).
Proof.
  assert ([Samples.march_1; Samples.march_2] ≠ []) as H1 by discriminate.
  assert ([Samples.march_1] ≠ []) as H2 by discriminate.
  assert (Forall Backup.valid_datetime [Samples.march_1; Samples.march_2]) as H3.
  { repeat constructor; vm_compute; discriminate. }
  assert (Forall Backup.valid_datetime [Samples.march_1]) as H4.
  { repeat constructor; vm_compute; discriminate. }
  assert (Forall (λ f, f ∈ Backup.memory_backup_name <$> [Samples.march_1; Samples.march_2])
     (filter (λ f, PyStr.startswith f "memory_cache_" = true)
        (elements (dom Samples.uneven_backups)))) as H5.
  { apply (bool_decide_unpack _). vm_compute. exact I. }
  assert (Forall (λ f, f ∈ Backup.file_backup_name <$> [Samples.march_1])
     (filter (λ f, PyStr.startswith f "file_cache_" = true)
        (elements (dom Samples.uneven_backups)))) as H6.
  { apply (bool_decide_unpack _). vm_compute. exact I. }
  assert (Forall (λ t, Backup.memory_backup_name t ∈ dom Samples.uneven_backups)
     [Samples.march_1; Samples.march_2]) as H7.
  { apply (bool_decide_unpack _). vm_compute. exact I. }
  assert (Forall (λ t, Backup.file_backup_name t ∈ dom Samples.uneven_backups)
     [Samples.march_1]) as H8.
  { apply (bool_decide_unpack _). vm_compute. exact I. }
  split; [done|].
  exact (restore_selects_most_recent Samples.uneven_backups
           [Samples.march_1; Samples.march_2] [Samples.march_1]
           H1 H2 H3 H4 H5 H6 H7 H8).
Defined.

Example latest_of_two_backups :
  Backup.latest "memory_cache_" (Some Samples.two_backups)
    = Ok "memory_cache_20240302_000000.pkl" ∧
  Backup.latest "file_cache_" (Some Samples.two_backups)
    = Ok "file_cache_20240302_000000".
Proof. split; vm_compute; reflexivity. Qed.

(** With Redis configured the last selection finds no [redis_cache_*] file:
    [restore] raises after both tiers have been replaced. *)
Example restore_two_backups :
  Backup.restore Samples.in_redis (Some Samples.two_backups) Backup.no_faults
  = (Service (stats Samples.in_redis) (memory_cache Samples.in_files)
       (cache_dir Samples.in_files) (redis Samples.in_redis),
     Raise IndexError).
Proof. vm_compute. reflexivity. Qed.

(** The two selections are independent: from [uneven_backups] a [restore]
    succeeds with the memory of the second of March and the files of the
    first. *)
Example restore_uneven_backups :
  Backup.latest "memory_cache_" (Some Samples.uneven_backups)
    = Ok "memory_cache_20240302_000000.pkl" ∧
  Backup.latest "file_cache_" (Some Samples.uneven_backups)
    = Ok "file_cache_20240301_235959" ∧
  Backup.restore Samples.in_memory (Some Samples.uneven_backups) Backup.no_faults
  = (Service (stats Samples.in_memory) (memory_cache Samples.no_cache_dir)
       (cache_dir Samples.in_files) None,
     Ok tt).
Proof. repeat split; vm_compute; reflexivity. Qed.

(** ** What a failing [restore] leaves behind *)

Section RestoreFacts.
Context {V : Type}.
Import Backup.
Implicit Types self : CacheService V.


(** [backup] writes no [redis_cache_*] file, so a service with Redis cannot
    complete [restore] on a directory that only [backup] has written to:
    the last step raises after both tiers have been replaced. *)
Lemma backup_writes_no_redis_snapshot self bd now fault f :
  f ∈ dom (default ∅ (backup self bd now fault).1) →
  f ∈ dom (default ∅ bd) ∨ f = memory_backup_name now ∨ f = file_backup_name now.
Proof.
  unfold backup. set (es := default ∅ bd).
  destruct (dump_pickle es _ _) as [es1|] eqn:H1; simpl; [|by left].
  assert (es1 = <[memory_backup_name now := Pickle (memory_cache self)]> es) as ->.
  { unfold dump_pickle in H1. repeat case_match; congruence. }
  assert (∀ es2 r,
    copytree_out (<[memory_backup_name now := Pickle (memory_cache self)]> es)
      (cache_dir self) (file_backup_name now) fault = (es2, r) →
    f ∈ dom es2 →
    f ∈ dom es ∨ f = memory_backup_name now ∨ f = file_backup_name now) as Hcp.
  { intros es2 r. unfold copytree_out. repeat case_match; intros [= <- <-];
      rewrite ?dom_insert_L, ?elem_of_union, ?elem_of_singleton; tauto. }
  destruct (copytree_out _ _ _ _) as [es2 [[]|e]] eqn:H2.
  - destruct (redis self); simpl; by eapply Hcp.
  - simpl. by eapply Hcp.
Qed.

End RestoreFacts.


(** With a file snapshot that is no directory, the cache directory is gone as
    well. *)
Example restore_failure_removes_cache_dir :
  Backup.restore Samples.in_files Samples.broken_backup Backup.no_faults
  = (Samples.after_broken_restore, Raise NotADirectoryError).
Proof. vm_compute. reflexivity. Qed.

(** A removal that stops midway leaves the memory of the snapshot beside what
    is left of the old cache directory. *)
Example restore_failure_half_deleted :
  Backup.restore Samples.two_files (Some Samples.two_backups)
    Samples.rm_stops_midway
  = (Service (stats Samples.two_files) ∅
       (Some (FS.Dir true {[ "b.cache" := "2" ]})) None,
     Raise PermissionError).
Proof. vm_compute. reflexivity. Qed.


(** ** The decorator's key *)

Section KeyFacts.
Import PyStr Memo.

Lemma app_inj_r s1 s2 t : s1 +:+ t = s2 +:+ t → s1 = s2.
Proof.
  revert s2. induction s1 as [|a s1 IH]; intros [|b s2] Heq; [done|..].
  - apply (f_equal String.length) in Heq. rewrite !length_app in Heq.
    simpl in Heq. lia.
  - apply (f_equal String.length) in Heq. rewrite !length_app in Heq.
    simpl in Heq. lia.
  - rewrite !app_cons in Heq. injection Heq as -> Heq. f_equal. by apply IH.
Qed.

(** Up to the first colon, two strings that agree have the same colon-free
    head. *)
Lemma colon_free_head n1 n2 r1 r2 :
  contains colon n1 = false → contains colon n2 = false →
  n1 +:+ ":" +:+ r1 = n2 +:+ ":" +:+ r2 → n1 = n2.
Proof.
  revert n2. induction n1 as [|a n1 IH]; intros [|b n2] H1 H2 Heq; [done|..].
  - rewrite !app_cons in Heq. injection Heq as <- _.
    simpl in H2. by destruct (decide (colon = colon)).
  - rewrite !app_cons in Heq. injection Heq as -> _.
    simpl in H1. by destruct (decide (colon = colon)).
  - rewrite !app_cons in Heq. injection Heq as -> Heq.
    simpl in H1, H2. destruct (decide (b = colon)); [done|].
    f_equal. by apply IH.
Qed.

Context {Args KW : Type}.
Variable str_args : Args → string.
Variable str_kwargs : KW → string.

(** C5, as the code has it: the key is made of the function's short name and
    of the renderings [str(args)] and [str(kwargs)].  Calls that agree on
    these three derive the same key; calls with different colon-free short
    names, or with the same short name and renderings that differ in one of
    the two places, derive different keys.  Nothing else about the function
    or the arguments enters the key. *)
Theorem derive_key_by_name_and_rendering (f g : pyfunc) (a a' : Args) (k k' : KW) :
  (f_name f = f_name g → str_args a = str_args a' → str_kwargs k = str_kwargs k' →
   derive_key str_args str_kwargs f a k = derive_key str_args str_kwargs g a' k') ∧
  (contains colon (f_name f) = false → contains colon (f_name g) = false →
   f_name f ≠ f_name g →
   derive_key str_args str_kwargs f a k ≠ derive_key str_args str_kwargs g a' k') ∧
  (f_name f = f_name g → str_kwargs k = str_kwargs k' → str_args a ≠ str_args a' →
   derive_key str_args str_kwargs f a k ≠ derive_key str_args str_kwargs g a' k') ∧
  (f_name f = f_name g → str_args a = str_args a' → str_kwargs k ≠ str_kwargs k' →
   derive_key str_args str_kwargs f a k ≠ derive_key str_args str_kwargs g a' k').
Proof.
  unfold derive_key. split; [|split; [|split]].
  - by intros -> -> ->.
  - intros Hf Hg Hne Heq. apply Hne. by eapply colon_free_head.
  - intros -> -> Hne Heq. apply Hne.
    apply (inj (String.app _)) in Heq.
    change (":" +:+ str_args a +:+ ":" +:+ str_kwargs k')
      with (String ":" (str_args a +:+ ":" +:+ str_kwargs k')) in Heq.
    change (":" +:+ str_args a' +:+ ":" +:+ str_kwargs k')
      with (String ":" (str_args a' +:+ ":" +:+ str_kwargs k')) in Heq.
    injection Heq as Heq. by apply app_inj_r in Heq.
  - intros -> -> Hne Heq. apply Hne.
    apply (inj (String.app _)) in Heq.
    change (":" +:+ str_args a' +:+ ":" +:+ str_kwargs k)
      with (String ":" (str_args a' +:+ ":" +:+ str_kwargs k)) in Heq.
    change (":" +:+ str_args a' +:+ ":" +:+ str_kwargs k')
      with (String ":" (str_args a' +:+ ":" +:+ str_kwargs k')) in Heq.
    injection Heq as Heq. apply (inj (String.app _)) in Heq.
    by injection Heq.
Qed.

End KeyFacts.

Example derive_key_ex :
  Samples.call_key = "detect_language:(7,):{}" ∧
  Memo.derive_key Memo.str_int_tuple Memo.str_int_dict
    Samples.detect_language_helpers [1; -2] [("lang", 3); ("top", 10)]
  = "detect_language:(1, -2):{'lang': 3, 'top': 10}".
Proof. split; vm_compute; reflexivity. Qed.

(** C5, as stated, fails: two different functions with the same short name
    derive the same key for the same arguments; and one function called with
    the same keyword arguments in another order derives two keys. *)
Lemma derive_key_collision :
  Samples.detect_language_helpers ≠ Samples.detect_language_other ∧
  Memo.derive_key Memo.str_int_tuple Memo.str_int_dict
    Samples.detect_language_helpers [7] []
  = Memo.derive_key Memo.str_int_tuple Memo.str_int_dict
      Samples.detect_language_other [7] [] ∧
  (list_to_map [("lang", 3); ("top", 10)] : gmap string Z)
  = list_to_map [("top", 10); ("lang", 3)] ∧
  Memo.derive_key Memo.str_int_tuple Memo.str_int_dict
    Samples.detect_language_helpers [] [("lang", 3); ("top", 10)]
  ≠ Memo.derive_key Memo.str_int_tuple Memo.str_int_dict
      Samples.detect_language_helpers [] [("top", 10); ("lang", 3)].
Proof.
  split; [discriminate|]. split; [vm_compute; reflexivity|].
  split; [vm_compute; reflexivity|]. vm_compute. discriminate.
Qed.

Lemma derive_key_by_name_and_rendering_witness :
  (Memo.f_name Samples.detect_language_helpers
   = Memo.f_name Samples.detect_language_other ∧
   Memo.str_int_dict [] = Memo.str_int_dict [] ∧
   Memo.str_int_tuple [7] ≠ Memo.str_int_tuple [8]) ∧
  Memo.derive_key Memo.str_int_tuple Memo.str_int_dict
    Samples.detect_language_helpers [7] []
  ≠ Memo.derive_key Memo.str_int_tuple Memo.str_int_dict
      Samples.detect_language_other [8] [].
Proof.
  assert (Memo.str_int_tuple [7] ≠ Memo.str_int_tuple [8]) as Hne
    by (vm_compute; discriminate).
  split; [split; [reflexivity|split; [reflexivity|exact Hne]]|].
  destruct (derive_key_by_name_and_rendering Memo.str_int_tuple Memo.str_int_dict
              Samples.detect_language_helpers Samples.detect_language_other
              [7] [8] [] []) as (_ & _ & Hargs & _).
  apply Hargs; [reflexivity | reflexivity | exact Hne].
Defined.

(** ** The orchestrator: a value written is the value read *)

Section OrchestratorFacts.
Import Orchestrator.
Context {value : Type}.
Variable serialize : value → option string.
Variable deserialize : string → option value.
Variable hash : string → string.

Lemma find_without k l : find (has_key k) (without k l) = None.
Proof.
  unfold without. induction l as [|e l IH]; [done|].
  rewrite filter_cons. destruct (decide (e_key e ≠ k)) as [Hne|Heq]; [|done].
  simpl. unfold has_key at 1. by rewrite bool_decide_eq_false_2.
Qed.

Lemma find_tail_None (P : entry → bool) l : find P l = None → find P (tail l) = None.
Proof. destruct l as [|e l]; [done|]. simpl. by destruct (P e). Qed.

Lemma find_snoc_None (P : entry → bool) l e :
  find P l = None → P e = true → find P (l ++ [e]) = Some e.
Proof.
  induction l as [|a l IH]; simpl; intros Hl He.
  - by rewrite He.
  - destruct (P a); [done|]. by apply IH.
Qed.

(** Right after an insert, the memory tier finds the inserted entry under its
    key, whatever was evicted to make room. *)
Lemma find_memory_insert m e :
  find (has_key (e_key e)) (entries (memory_insert m e)) = Some e.
Proof.
  unfold memory_insert. simpl. apply find_snoc_None.
  - destruct (decide _); [apply find_tail_None|]; apply find_without.
  - unfold has_key. by apply bool_decide_eq_true_2.
Qed.

Lemma memory_get_insert now m e :
  expired now e = false →
  (memory_get now (memory_insert m e) (e_key e)).2 = Some e.
Proof.
  intros Hlive. unfold memory_get. by rewrite find_memory_insert, Hlive.
Qed.

(** The shared core of the read-after-write facts: the entry [set] builds is
    live until its TTL has elapsed, and [get] answers from the memory tier. *)
Lemma get_after_set c key v bytes ttl namespace now now' :
  serialize v = Some bytes →
  now' < now + ttl →
  let c' := (set serialize hash c key v (Some ttl) namespace now).1 in
  (get deserialize hash c' key namespace now').2
  = match deserialize bytes with Some v' => Hit v' | None => SerializationError end.
Proof.
  intros Hser Hlive. unfold set. rewrite Hser. simpl.
  set (e := Entry (canonical namespace key) bytes now (Some (now + ttl))).
  unfold get. simpl.
  pose proof (memory_get_insert now' (mem c) e) as Hget.
  change (e_key e) with (canonical namespace key) in Hget.
  destruct (memory_get now' (memory_insert (mem c) e) (canonical namespace key))
    as [m1 r]. simpl in Hget. rewrite Hget.
  - done.
  - unfold expired. simpl. apply Z.leb_gt. lia.
Qed.

(** C1: [set(key, value, ttl)] with [ttl > 0] on a value that serializes and
    round-trips succeeds, and a [get(key)] in the same namespace, issued at
    once or at any moment before the TTL has elapsed, returns [value]. *)
Theorem set_then_get c key v bytes ttl namespace now now' :
  0 < ttl →
  serialize v = Some bytes →
  deserialize bytes = Some v →
  now ≤ now' < now + ttl →
  (set serialize hash c key v (Some ttl) namespace now).2 = true ∧
  (get deserialize hash
     (set serialize hash c key v (Some ttl) namespace now).1 key namespace now).2
  = Hit v ∧
  (get deserialize hash
     (set serialize hash c key v (Some ttl) namespace now).1 key namespace now').2
  = Hit v.
Proof.
  intros Httl Hser Hde [Hge Hlt]. split; [|split].
  - unfold set. by rewrite Hser.
  - rewrite (get_after_set c key v bytes ttl namespace now now Hser) by lia.
    by rewrite Hde.
  - rewrite (get_after_set c key v bytes ttl namespace now now' Hser) by lia.
    by rewrite Hde.
Qed.

End OrchestratorFacts.

Lemma set_then_get_witness :
  (0 < 60 ∧
   Samples.plain_serialize "VERIFIED" = Some "VERIFIED" ∧
   Samples.plain_deserialize "VERIFIED" = Some "VERIFIED" ∧
   100 ≤ 100 < 100 + 60) ∧
  (Orchestrator.set Samples.plain_serialize Samples.plain_hash Samples.busy_cache
     "claim:123" "VERIFIED" (Some 60) "factcheck" 100).2 = true ∧
  (Orchestrator.get Samples.plain_deserialize Samples.plain_hash
     (Orchestrator.set Samples.plain_serialize Samples.plain_hash Samples.busy_cache
        "claim:123" "VERIFIED" (Some 60) "factcheck" 100).1
     "claim:123" "factcheck" 100).2 = Orchestrator.Hit "VERIFIED".
Proof.
  split; [repeat split; lia|].
  destruct (set_then_get Samples.plain_serialize Samples.plain_deserialize
              Samples.plain_hash Samples.busy_cache "claim:123" "VERIFIED" "VERIFIED"
              60 "factcheck" 100 100) as (Hok & Hnow & _);
    [lia | reflexivity | reflexivity | lia |].
  split; [exact Hok | exact Hnow].
Defined.

Example set_evicts_then_get :
  Orchestrator.entries (Orchestrator.mem
    (Orchestrator.set Samples.plain_serialize Samples.plain_hash Samples.busy_cache
       "claim:123" "VERIFIED" (Some 60) "factcheck" 100).1)
  = [Orchestrator.Entry "factcheck:a" "1" 0 None;
     Orchestrator.Entry "factcheck:claim:123" "VERIFIED" 100 (Some 160)] ∧
  (Orchestrator.get Samples.plain_deserialize Samples.plain_hash
     (Orchestrator.set Samples.plain_serialize Samples.plain_hash Samples.busy_cache
        "claim:123" "VERIFIED" (Some 60) "factcheck" 100).1
     "claim:123" "factcheck" 160).2 = Orchestrator.Miss.
Proof. split; vm_compute; reflexivity. Qed.

(** ** The decorator under interleaving *)

Section MemoFacts.
Import Memo.
Context {C R : Type}.
Variable cache_get : C → string → C * option R.
Variable cache_set : C → string → option R → C.
Variable func : nat → option R.
Variable key : string.

Local Abbreviation step := (Memo.step cache_get cache_set func key).
Local Abbreviation run := (Memo.run cache_get cache_set func key).

Lemma count_started_insert (l : list (task (R:=R))) i x y :
  l !! i = Some y →
  (count_started (<[i := x]> l) + (if is_started y then 1 else 0)
   = count_started l + (if is_started x then 1 else 0))%nat.
Proof.
  revert i. induction l as [|t l IH]; intros [|i] Hi; try done; simpl in *.
  - injection Hi as ->. lia.
  - specialize (IH i Hi). lia.
Qed.

Lemma count_started_le (l : list (task (R:=R))) : (count_started l ≤ length l)%nat.
Proof. induction l as [|t l IH]; simpl; [lia|]. destruct (is_started t); lia. Qed.

Lemma run_app l1 l2 w : run (l1 ++ l2) w = run l2 (run l1 w).
Proof. unfold Memo.run. apply foldl_app. Qed.

(** No step lets the number of runs of [func] overtake the number of calls
    that have started, and no step changes the number of calls. *)
Lemma step_invariant w i :
  (calls w ≤ count_started (tasks w))%nat →
  (calls (step w i) ≤ count_started (tasks (step w i)))%nat ∧
  length (tasks (step w i)) = length (tasks w).
Proof.
  intros Hinv. unfold Memo.step.
  destruct (tasks w !! i) as [[|n|r|r]|] eqn:Hi; simpl; [| | |done|done].
  - destruct (cache_get (w_cache w) key) as [c1 [v|]]; simpl;
      rewrite length_insert; (split; [|done]).
    + pose proof (count_started_insert (tasks w) i (Done (Some v)) _ Hi).
      simpl in *. lia.
    + pose proof (count_started_insert (tasks w) i (Running (calls w)) _ Hi).
      simpl in *. lia.
  - rewrite length_insert. split; [|done].
    pose proof (count_started_insert (tasks w) i (Computed (func n)) _ Hi).
    simpl in *. lia.
  - rewrite length_insert. split; [|done].
    pose proof (count_started_insert (tasks w) i (Done r) _ Hi).
    simpl in *. lia.
Qed.

Lemma run_invariant schedule w :
  (calls w ≤ count_started (tasks w))%nat →
  (calls (run schedule w) ≤ count_started (tasks (run schedule w)))%nat ∧
  length (tasks (run schedule w)) = length (tasks w).
Proof.
  revert w. induction schedule as [|i schedule IH]; intros w Hinv; [done|].
  change (run (i :: schedule) w) with (run schedule (step w i)).
  destruct (step_invariant w i Hinv) as [Hstep Hlen].
  destruct (IH _ Hstep) as [Hrun Hlen']. split; [done|]. congruence.
Qed.

(** Under every schedule, [n] calls of the wrapper run [func] at most [n]
    times. *)
Lemma run_calls_bounded schedule n c :
  (calls (run schedule (spawn n c)) ≤ n)%nat.
Proof.
  destruct (run_invariant schedule (spawn n c)) as [Hcalls Hlen]; [simpl; lia|].
  pose proof (count_started_le (tasks (run schedule (spawn n c)))) as Hle.
  rewrite Hlen in Hle. simpl in Hle. rewrite length_replicate in Hle. lia.
Qed.

(** *** Calls that do not overlap *)

Section OneByOne.
Variable n : nat.
Variable c0 : C.
Variable r : R.
Hypothesis uncached : (cache_get c0 key).2 = None.
Hypothesis first_run : func 0 = Some r.
Hypothesis hit_after_set :
  ∀ c, (cache_get (cache_set c key (Some r)) key).2 = Some r.
Hypothesis hit_after_hit :
  ∀ c, (cache_get c key).2 = Some r → (cache_get (cache_get c key).1 key).2 = Some r.

Local Abbreviation served := (Memo.served cache_get key n c0 r).

Lemma step_start_miss w i c1 :
  tasks w !! i = Some Start → cache_get (w_cache w) key = (c1, None) →
  step w i = World c1 (S (calls w)) (<[i := Running (calls w)]> (tasks w)).
Proof. intros Hi Hget. unfold Memo.step. by rewrite Hi, Hget. Qed.

Lemma step_start_hit w i c1 v :
  tasks w !! i = Some Start → cache_get (w_cache w) key = (c1, Some v) →
  step w i = World c1 (calls w) (<[i := Done (Some v)]> (tasks w)).
Proof. intros Hi Hget. unfold Memo.step. by rewrite Hi, Hget. Qed.

Lemma step_running w i m :
  tasks w !! i = Some (Running m) →
  step w i = World (w_cache w) (calls w) (<[i := Computed (func m)]> (tasks w)).
Proof. intros Hi. unfold Memo.step. by rewrite Hi. Qed.

Lemma step_computed w i v :
  tasks w !! i = Some (Computed v) →
  step w i = World (cache_set (w_cache w) key v) (calls w) (<[i := Done v]> (tasks w)).
Proof. intros Hi. unfold Memo.step. by rewrite Hi. Qed.

Lemma step_done w i v : tasks w !! i = Some (Done v) → step w i = w.
Proof. intros Hi. unfold Memo.step. by rewrite Hi. Qed.

(** A call that misses, run to completion without interruption. *)
Lemma three_steps_miss w i c1 :
  tasks w !! i = Some Start → cache_get (w_cache w) key = (c1, None) →
  step (step (step w i) i) i
  = World (cache_set c1 key (func (calls w))) (S (calls w))
      (<[i := Done (func (calls w))]> (tasks w)).
Proof.
  intros Hi Hget. assert (i < length (tasks w))%nat as Hlt by (by eapply lookup_lt_Some).
  rewrite (step_start_miss w i c1 Hi Hget).
  set (w1 := World c1 (S (calls w)) (<[i := Running (calls w)]> (tasks w))).
  rewrite (step_running w1 i (calls w)) by (by apply list_lookup_insert_eq).
  set (w2 := World (w_cache w1) (calls w1) (<[i := Computed (func (calls w))]> (tasks w1))).
  rewrite (step_computed w2 i (func (calls w))).
  - simpl. by rewrite !list_insert_insert_eq.
  - simpl. apply list_lookup_insert_eq. by rewrite length_insert.
Qed.

(** A call that hits returns at once; resuming it again changes nothing. *)
Lemma three_steps_hit w i c1 v :
  tasks w !! i = Some Start → cache_get (w_cache w) key = (c1, Some v) →
  step (step (step w i) i) i
  = World c1 (calls w) (<[i := Done (Some v)]> (tasks w)).
Proof.
  intros Hi Hget. assert (i < length (tasks w))%nat as Hlt by (by eapply lookup_lt_Some).
  rewrite (step_start_hit w i c1 v Hi Hget).
  set (w1 := World c1 (calls w) (<[i := Done (Some v)]> (tasks w))).
  assert (step w1 i = w1) as Hid.
  { apply (step_done w1 i (Some v)). by apply list_lookup_insert_eq. }
  by rewrite !Hid.
Qed.

Lemma served_step i w :
  (i < n)%nat → served i w → served (S i) (run [i; i; i] w).
Proof.
  intros Hi (Hlen & Hdone & Hstart & Hstate).
  assert (tasks w !! i = Some Start) as Hti by (apply Hstart; lia).
  change (run [i; i; i] w) with (step (step (step w i) i) i).
  destruct (cache_get (w_cache w) key) as [c1 res] eqn:Hget.
  destruct i as [|i].
  - destruct Hstate as [Hcalls Hc0].
    assert (res = None) as ->.
    { pose proof uncached as Hu. rewrite <-Hc0, Hget in Hu. exact Hu. }
    rewrite (three_steps_miss w 0 c1 Hti Hget), Hcalls, first_run.
    split; [by simpl; rewrite length_insert|]. simpl. split; [|split].
    + intros j Hj. assert (j = 0)%nat as -> by lia.
      apply list_lookup_insert_eq. lia.
    + intros j Hj. rewrite list_lookup_insert_ne by lia. apply Hstart. lia.
    + split; [done|]. apply hit_after_set.
  - destruct Hstate as [Hcalls Hhit].
    pose proof (hit_after_hit (w_cache w)) as Hkeep.
    rewrite Hget in Hkeep. simpl in Hhit, Hkeep. subst res.
    specialize (Hkeep eq_refl).
    rewrite (three_steps_hit w (S i) c1 r Hti Hget).
    split; [by simpl; rewrite length_insert|]. simpl. split; [|split].
    + intros j Hj. destruct (decide (j = S i)) as [->|Hne].
      * apply list_lookup_insert_eq. lia.
      * rewrite list_lookup_insert_ne by lia. apply Hdone. lia.
    + intros j Hj. rewrite list_lookup_insert_ne by lia. apply Hstart. lia.
    + done.
Qed.

Lemma one_by_one_S i : one_by_one (S i) = one_by_one i ++ [i; i; i].
Proof. unfold one_by_one. rewrite seq_S, flat_map_app. simpl. done. Qed.

Lemma served_prefix i :
  (i ≤ n)%nat → served i (run (one_by_one i) (spawn n c0)).
Proof.
  induction i as [|i IH]; intros Hi.
  - unfold Memo.served. simpl. rewrite length_replicate. split; [done|].
    split; [intros; lia|]. split; [|done].
    intros j Hj. apply lookup_replicate_2. lia.
  - rewrite one_by_one_S, run_app. apply served_step; [lia|]. apply IH. lia.
Qed.

Lemma one_by_one_runs_once :
  (0 < n)%nat →
  calls (run (one_by_one n) (spawn n c0)) = 1%nat ∧
  tasks (run (one_by_one n) (spawn n c0)) = replicate n (Done (Some r)).
Proof.
  intros Hn. destruct (served_prefix n) as (Hlen & Hdone & _ & Hstate); [lia|].
  destruct n as [|m]; [lia|]. destruct Hstate as [Hcalls _]. split; [done|].
  apply list_eq. intros j. destruct (decide (j < S m)%nat) as [Hj|Hj].
  - rewrite Hdone by done. symmetry. by apply lookup_replicate_2.
  - rewrite !lookup_ge_None_2; [done|rewrite length_replicate; lia|lia].
Qed.

End OneByOne.


End MemoFacts.



(** * Further properties of the service *)

(** ** More on key and namespace enumeration *)

Section EnumerationFacts.
Context {V : Type}.
Variable redis_match fn_match : string → string → bool.
Implicit Types self : CacheService V.

Lemma kept_elem (l : list (option string)) x : x ∈ Keys.kept l ↔ Some x ∈ l.
Proof.
  unfold Keys.kept. rewrite list_elem_of_omap. split.
  - intros (o & Ho & Hid). unfold id in Hid. by subst o.
  - intros Hx. by exists (Some x).
Qed.

Lemma result_mapM_kept {A} (f : A → result (option string)) l r x :
  Keys.kept <$> result_mapM f l = Ok r →
  x ∈ r ↔ ∃ a, a ∈ l ∧ f a = Ok (Some x).
Proof.
  destruct (result_mapM f l) as [ys|] eqn:Hl; [|done]. simpl.
  intros [= <-]. rewrite kept_elem. apply (result_mapM_ok _ _ _ Hl).
Qed.

Lemma get_namespaces_elem self nss x :
  Keys.get_namespaces_set redis_match self = Ok nss →
  x ∈ Keys.get_namespaces redis_match self ↔
    (∃ k, k ∈ dom (memory_cache self) ∧ Keys.namespace_of k = Ok (Some x)) ∨
    (∃ r k, redis self = Some r ∧ k ∈ dom (Redis.store r) ∧
            redis_match "*" k = true ∧
            (PyStr.decode k ≫= Keys.namespace_of) = Ok (Some x)) ∨
    (∃ d f, cache_dir self = Some d ∧ f ∈ dom (FS.files d) ∧
            PyStr.endswith f ".cache" = true ∧
            Keys.namespace_of f = Ok (Some x)).
Proof.
  intros Hset. unfold Keys.get_namespaces. rewrite Hset. simpl.
  rewrite sorted_list_elem.
  unfold Keys.get_namespaces_set in Hset.
  destruct (Keys.memory_namespaces self) as [mn|] eqn:Hmn; [|done]. simpl in Hset.
  destruct (Keys.redis_namespaces redis_match self) as [rn|] eqn:Hrn; [|done].
  simpl in Hset.
  destruct (Keys.file_namespaces self) as [fn|] eqn:Hfn; [|done]. simpl in Hset.
  injection Hset as <-.
  rewrite !elem_of_union, !elem_of_list_to_set.
  unfold Keys.memory_namespaces in Hmn. rewrite (result_mapM_kept _ _ _ x Hmn).
  assert (x ∈ rn ↔
    ∃ r k, redis self = Some r ∧ k ∈ dom (Redis.store r) ∧ redis_match "*" k = true ∧
           (PyStr.decode k ≫= Keys.namespace_of) = Ok (Some x)) as ->.
  { unfold Keys.redis_namespaces in Hrn. destruct (redis self) as [r|].
    - unfold Redis.keys in Hrn. destruct (Redis.up r); [|done]. simpl in Hrn.
      rewrite (result_mapM_kept _ _ _ x Hrn). split.
      + intros (k & Hk & Hx). apply list_elem_of_filter in Hk as [Hm Hk].
        apply elem_of_elements in Hk. eauto 10.
      + intros (r' & k & [= <-] & Hk & Hm & Hx). exists k. split; [|done].
        apply list_elem_of_filter. by rewrite elem_of_elements.
    - injection Hrn as <-. split; [by intros ?%elem_of_nil|].
      by intros (? & ? & ? & _). }
  assert (x ∈ fn ↔
    ∃ d f, cache_dir self = Some d ∧ f ∈ dom (FS.files d) ∧
           PyStr.endswith f ".cache" = true ∧ Keys.namespace_of f = Ok (Some x)) as ->.
  { unfold Keys.file_namespaces, FS.listdir in Hfn.
    destruct (cache_dir self) as [d|]; [|done]. simpl in Hfn.
    rewrite (result_mapM_kept _ _ _ x Hfn). split.
    + intros (f & Hf & Hx). apply elem_of_elements in Hf.
      destruct (PyStr.endswith f ".cache") eqn:Hend; [|done]. eauto 10.
    + intros (d' & f & [= <-] & Hf & Hend & Hx). exists f.
      rewrite elem_of_elements, Hend. done. }
  split.
  - intros [[(k & Hk & Hx)|Hr]|Hf]; [left|right; left|right; right]; try done.
    apply elem_of_elements in Hk. eauto.
  - intros [(k & Hk & Hx)|[Hr|Hf]]; [left; left|left; right|right]; try done.
    exists k. by rewrite elem_of_elements.
Qed.

End EnumerationFacts.


Section StringFacts.
Import PyStr.

Lemma startswith_spec s p : startswith s p = true ↔ ∃ t, s = p +:+ t.
Proof.
  unfold startswith. revert s. induction p as [|a p IH]; intros s.
  - split; [|by destruct s]. intros _. by exists s.
  - destruct s as [|b s]; simpl.
    + split; [done|]. intros [t Ht]. by rewrite app_cons in Ht.
    + destruct (Ascii.ascii_dec a b) as [->|Hne].
      * rewrite IH. split; intros [t Ht]; exists t.
        -- by rewrite app_cons, Ht.
        -- rewrite app_cons in Ht. by injection Ht.
      * split; [done|]. intros [t Ht]. rewrite app_cons in Ht. congruence.
Qed.

Lemma contains_app c a b : contains c (a +:+ b) = contains c a || contains c b.
Proof.
  induction a as [|x a IH]; [done|]. rewrite app_cons. simpl.
  by destruct (decide (x = c)).
Qed.

Lemma remove_char_app c a b :
  remove_char c (a +:+ b) = remove_char c a +:+ remove_char c b.
Proof.
  induction a as [|x a IH]; [done|]. rewrite app_cons. simpl.
  destruct (decide (x = c)); [done|]. by rewrite app_cons, IH.
Qed.

Lemma remove_char_absent c a : contains c a = false → remove_char c a = a.
Proof.
  induction a as [|x a IH]; [done|]. simpl.
  destruct (decide (x = c)); [done|]. intros Ha. by rewrite IH.
Qed.

(** A colon-free head is what [split(':', 1)] cuts off. *)
Lemma split1_app ns rest :
  contains colon ns = false →
  split1 colon (ns +:+ ":" +:+ rest) = [ns; rest].
Proof.
  induction ns as [|x ns IH]; intros Hns.
  - reflexivity.
  - rewrite app_cons. simpl in *. destruct (decide (x = colon)); [done|].
    by rewrite IH.
Qed.

(** Conversely the two pieces, joined by a colon, give the string back. *)
Lemma split1_join s a b :
  split1 colon s = [a; b] → s = a +:+ ":" +:+ b ∧ contains colon a = false.
Proof.
  revert a. induction s as [|x s IH]; intros a Hs; simpl in Hs; [done|].
  destruct (decide (x = colon)) as [->|Hne].
  - by injection Hs as <- <-.
  - destruct (split1 colon s) as [|h [|h' t]] eqn:Hsp; try done.
    injection Hs as <- <- ->. destruct (IH h eq_refl) as [-> Hh].
    split; [by rewrite app_cons|]. simpl. by destruct (decide (x = colon)).
Qed.

Lemma app_assoc_str a b c : (a +:+ b) +:+ c = a +:+ b +:+ c.
Proof. induction a as [|x a IH]; [done|]. by rewrite !app_cons, IH. Qed.

End StringFacts.

Section EnumerationSpecs.
Context {V : Type}.
Variable redis_match fn_match : string → string → bool.
Implicit Types self : CacheService V.
Import PyStr.

Lemma get_namespaces_sorted self :
  StronglySorted String.le (Keys.get_namespaces redis_match self) ∧
  NoDup (Keys.get_namespaces redis_match self).
Proof.
  unfold Keys.get_namespaces.
  destruct (Keys.get_namespaces_set _ _) as [keys|e]; simpl.
  - split; [apply sorted_list_sorted | apply sorted_list_NoDup].
  - split; constructor.
Qed.

Lemma memory_selects_namespace ns k :
  contains star ns = false →
  Keys.memory_selects (ns +:+ ":" +:+ "*") k = true ↔ ∃ raw, k = ns +:+ ":" +:+ raw.
Proof.
  intros Hns. unfold Keys.memory_selects.
  rewrite remove_char_app, (remove_char_absent _ _ Hns).
  change (remove_char star (":" +:+ "*")) with ":".
  rewrite startswith_spec. split; intros [t ->]; exists t.
  - apply app_assoc_str.
  - symmetry. apply app_assoc_str.
Qed.

Lemma strip_namespace_canonical ns raw :
  contains colon ns = false →
  Keys.strip_namespace (ns +:+ ":" +:+ raw) (ns +:+ ":" +:+ raw) = Ok raw.
Proof.
  intros Hns. unfold Keys.strip_namespace.
  rewrite contains_app, Hns. simpl.
  destruct (decide (colon = colon)); [|done].
  by rewrite split1_app.
Qed.

Lemma namespace_of_canonical ns raw :
  contains colon ns = false →
  Keys.namespace_of (ns +:+ ":" +:+ raw) = Ok (Some ns).
Proof.
  intros Hns. unfold Keys.namespace_of.
  rewrite contains_app, Hns. simpl.
  destruct (decide (colon = colon)); [|done].
  by rewrite split1_app.
Qed.

Lemma namespace_of_Some k x :
  Keys.namespace_of k = Ok (Some x) →
  contains colon x = false ∧ ∃ raw, k = x +:+ ":" +:+ raw.
Proof.
  unfold Keys.namespace_of. destruct (contains colon k) eqn:Hc; [|done].
  destruct (split1_contains _ _ Hc) as (a & b & Hs). rewrite Hs. simpl.
  intros [= <-]. apply split1_join in Hs as [-> Ha]. eauto.
Qed.

Lemma namespace_of_colon_free k :
  contains colon k = false → Keys.namespace_of k = Ok None.
Proof. unfold Keys.namespace_of. by intros ->. Qed.

Lemma namespace_of_ok k : ∃ o, Keys.namespace_of k = Ok o.
Proof.
  unfold Keys.namespace_of. destruct (contains colon k) eqn:Hc; [|eauto].
  destruct (split1_contains _ _ Hc) as (a & b & ->). simpl. eauto.
Qed.

(** X1: when no tier raises, [get_keys] returns the sorted list, without
    duplicates, of exactly the raw keys that the memory tier selects by prefix,
    Redis by its [KEYS] matcher and the file tier by [glob]. *)
Theorem get_keys_spec self pattern namespace keys :
  Keys.get_keys_set redis_match fn_match self pattern namespace = Ok keys →
  StronglySorted String.le (Keys.get_keys redis_match fn_match self pattern namespace) ∧
  NoDup (Keys.get_keys redis_match fn_match self pattern namespace) ∧
  ∀ x, x ∈ Keys.get_keys redis_match fn_match self pattern namespace ↔
    (∃ k, k ∈ dom (memory_cache self) ∧
          Keys.memory_selects (Keys.qualify pattern namespace) k = true ∧
          Keys.strip_namespace k k = Ok x) ∨
    (∃ r k, redis self = Some r ∧ k ∈ dom (Redis.store r) ∧
            redis_match (Keys.qualify pattern namespace) k = true ∧
            (PyStr.decode k ≫= λ d, Keys.strip_namespace d d) = Ok x) ∨
    (∃ d f, cache_dir self = Some d ∧ f ∈ dom (FS.files d) ∧
            fn_match (Keys.qualify pattern namespace +:+ ".cache") f = true ∧
            Keys.strip_namespace f (PyStr.splitext_stem f) = Ok x).
Proof.
  intros Hset. destruct (get_keys_sorted redis_match fn_match self pattern namespace)
    as [Hsorted Hnodup].
  split; [done|]. split; [done|]. intros x.
  apply (get_keys_elem redis_match fn_match self pattern namespace keys x Hset).
Qed.

(** X2: when no tier raises, [get_namespaces] returns the sorted list, without
    duplicates, of exactly the texts before the first colon of the memory keys,
    of the decoded Redis keys and of the [*.cache] file names that have a
    colon. *)
Theorem get_namespaces_spec self nss :
  Keys.get_namespaces_set redis_match self = Ok nss →
  StronglySorted String.le (Keys.get_namespaces redis_match self) ∧
  NoDup (Keys.get_namespaces redis_match self) ∧
  ∀ x, x ∈ Keys.get_namespaces redis_match self ↔
    (∃ k, k ∈ dom (memory_cache self) ∧ Keys.namespace_of k = Ok (Some x)) ∨
    (∃ r k, redis self = Some r ∧ k ∈ dom (Redis.store r) ∧
            redis_match "*" k = true ∧
            (PyStr.decode k ≫= Keys.namespace_of) = Ok (Some x)) ∨
    (∃ d f, cache_dir self = Some d ∧ f ∈ dom (FS.files d) ∧
            PyStr.endswith f ".cache" = true ∧
            Keys.namespace_of f = Ok (Some x)).
Proof.
  intros Hset. destruct (get_namespaces_sorted self) as [Hsorted Hnodup].
  split; [done|]. split; [done|]. intros x.
  apply (get_namespaces_elem redis_match self nss x Hset).
Qed.

Lemma get_keys_set_memory_only self pattern namespace :
  redis self = None → cache_dir self = None →
  ∃ keys, Keys.get_keys_set redis_match fn_match self pattern namespace = Ok keys.
Proof.
  intros Hr Hd. unfold Keys.get_keys_set.
  destruct (memory_keys_ok self (Keys.qualify pattern namespace)) as [mk ->].
  unfold Keys.redis_keys, Keys.file_keys, Keys.glob_cache_dir. rewrite Hr, Hd.
  simpl. eauto.
Qed.

(** X3: on a service with neither Redis nor cache directory,
    [get_keys('*', ns)] lists exactly the raw keys stored in memory under the
    namespace [ns] (a non-empty namespace without colon or star): [x] is
    listed if and only if [ns:x] is a key of the memory cache. *)
Theorem get_keys_memory_only self ns x :
  redis self = None → cache_dir self = None →
  ns ≠ "" → contains colon ns = false → contains star ns = false →
  x ∈ Keys.get_keys redis_match fn_match self "*" (Some ns) ↔
  (ns +:+ ":" +:+ x) ∈ dom (memory_cache self).
Proof.
  intros Hr Hd Hne Hcolon Hstar.
  destruct (get_keys_set_memory_only self "*" (Some ns) Hr Hd) as [keys Hset].
  rewrite (get_keys_elem redis_match fn_match self "*" (Some ns) keys x Hset).
  unfold Keys.qualify. destruct (decide (ns = "")); [done|].
  split.
  - intros [(k & Hk & Hsel & Hstrip)|[(r & k & Hr' & _)|(d & f & Hd' & _)]];
      [|congruence..].
    apply memory_selects_namespace in Hsel as [raw ->]; [|done].
    rewrite strip_namespace_canonical in Hstrip by done. by injection Hstrip as <-.
  - intros Hk. left. exists (ns +:+ ":" +:+ x). split; [done|]. split.
    + apply memory_selects_namespace; eauto.
    + by apply strip_namespace_canonical.
Qed.

(** X4: on a service without Redis whose cache files have no colon in their
    names, [get_namespaces] lists exactly the colon-free prefixes [x] for which
    some key [x:raw] is in the memory cache. *)
Theorem get_namespaces_of_memory self d x :
  redis self = None → cache_dir self = Some d →
  (∀ f, f ∈ dom (FS.files d) → endswith f ".cache" = true → contains colon f = false) →
  x ∈ Keys.get_namespaces redis_match self ↔
  contains colon x = false ∧ ∃ raw, (x +:+ ":" +:+ raw) ∈ dom (memory_cache self).
Proof.
  intros Hr Hd Hfiles.
  assert (∃ nss, Keys.get_namespaces_set redis_match self = Ok nss) as [nss Hset].
  { unfold Keys.get_namespaces_set, Keys.memory_namespaces, Keys.redis_namespaces,
      Keys.file_namespaces, FS.listdir. rewrite Hr, Hd.
    destruct (result_mapM_total Keys.namespace_of
                (elements (dom (memory_cache self))) namespace_of_ok) as [mn ->].
    simpl.
    destruct (result_mapM_total
                (λ file, if endswith file ".cache" then Keys.namespace_of file else Ok None)
                (elements (dom (FS.files d)))) as [fn ->].
    { intros f. destruct (endswith f ".cache"); [apply namespace_of_ok|eauto]. }
    simpl. eauto. }
  rewrite (get_namespaces_elem redis_match self nss x Hset). split.
  - intros [(k & Hk & Hx)|[(r & k & Hr' & _)|(d' & f & Hd' & Hf & Hend & Hx)]].
    + apply namespace_of_Some in Hx as [Hc [raw ->]]. eauto.
    + congruence.
    + assert (d' = d) as -> by congruence.
      rewrite (namespace_of_colon_free f) in Hx by (by apply Hfiles). done.
  - intros [Hc [raw Hk]]. left. exists (x +:+ ":" +:+ raw). split; [done|].
    by apply namespace_of_canonical.
Qed.

End EnumerationSpecs.

Section FileNames.
Import PyStr.

Lemma endswith_spec f s : endswith f s = true ↔ ∃ x, f = x +:+ s.
Proof.
  induction f as [|a f IH]; simpl.
  - destruct (decide ("" = s)) as [<-|Hne].
    + split; [|done]. intros _. by exists "".
    + split; [done|]. intros [[|b x] Hx]; [by destruct s|].
      by rewrite app_cons in Hx.
  - destruct (decide (String a f = s)) as [<-|Hne].
    + split; [|done]. intros _. by exists "".
    + rewrite IH. split.
      * intros [x ->]. exists (String a x). by rewrite app_cons.
      * intros [[|b x] Hx]; [by destruct s; simplify_eq|].
        rewrite app_cons in Hx. injection Hx as -> ->. eauto.
Qed.

Lemma endswith_cons a f s : endswith f s = true → endswith (String a f) s = true.
Proof. intros Hf. simpl. by destruct (decide (String a f = s)). Qed.

Lemma before_last_dot_None t : contains dot t = false → before_last_dot t = None.
Proof.
  induction t as [|a t IH]; [done|]. simpl.
  destruct (decide (a = dot)); [done|]. intros Ht. by rewrite IH.
Qed.

Lemma before_last_dot_app x t :
  contains dot t = false → before_last_dot (x +:+ "." +:+ t) = Some x.
Proof.
  intros Ht. induction x as [|a x IH].
  - change ("" +:+ "." +:+ t) with (String dot t). simpl.
    rewrite before_last_dot_None by done. by destruct (decide (dot = dot)).
  - rewrite app_cons. simpl. by rewrite IH.
Qed.

Lemma all_dots_colon x : contains colon x = true → all_dots x = false.
Proof.
  induction x as [|a x IH]; [done|]. simpl.
  destruct (decide (a = colon)) as [->|Hne]; [done|].
  destruct (decide (a = dot)); [done|done].
Qed.

(** A cache file name with a colon in it keeps the colon in its stem, so the
    file tier's [split(':', 1)[1]] always finds its second piece. *)
Lemma strip_namespace_cache_file f :
  endswith f ".cache" = true →
  ∃ x, Keys.strip_namespace f (splitext_stem f) = Ok x.
Proof.
  intros [x ->]%endswith_spec. unfold Keys.strip_namespace.
  rewrite contains_app. change (contains colon ".cache") with false.
  rewrite orb_false_r. destruct (contains colon x) eqn:Hc; [|eauto].
  unfold splitext_stem.
  change (x +:+ ".cache") with (x +:+ "." +:+ "cache").
  rewrite before_last_dot_app by done. rewrite all_dots_colon by done.
  destruct (split1_contains _ _ Hc) as (a & b & ->). eauto.
Qed.

End FileNames.

Section GlobFacts.
Import PyStr Glob.

Lemma glob_match_star p s :
  glob_match (String "*" p) s
  = glob_match p s || match s with
                      | EmptyString => false
                      | String _ s' => glob_match (String "*" p) s'
                      end.
Proof. by destruct s. Qed.

Lemma glob_match_cons c p s :
  c ≠ "*"%char →
  glob_match (String c p) s
  = match s with
    | EmptyString => false
    | String d s' =>
        (if decide (c = "?"%char) then true else bool_decide (c = d))
        && glob_match p s'
    end.
Proof. intros Hc. simpl. by destruct (decide (c = "*"%char)). Qed.

(** A pattern without wildcards matches itself only. *)
Lemma glob_match_literal s f :
  contains "*" s = false → contains "?" s = false →
  glob_match s f = true → f = s.
Proof.
  revert f. induction s as [|c s IH]; intros f Hstar Hq Hm.
  - by destruct f.
  - simpl in Hstar, Hq.
    destruct (decide (c = "*"%char)) as [|Hc]; [done|].
    destruct (decide (c = "?"%char)) as [|Hc']; [done|].
    rewrite glob_match_cons in Hm by done.
    destruct f as [|d f]; [done|].
    destruct (decide (c = "?"%char)); [done|].
    apply andb_true_iff in Hm as [Hcd Hm]. apply bool_decide_eq_true in Hcd as ->.
    f_equal. by apply IH.
Qed.

(** What a pattern ending in a literal matches ends in that literal. *)
Lemma glob_match_suffix p s f :
  contains "*" s = false → contains "?" s = false →
  glob_match (p +:+ s) f = true → endswith f s = true.
Proof.
  intros Hstar Hq. revert f. induction p as [|c p IH]; intros f Hm.
  - change ("" +:+ s) with s in Hm. apply glob_match_literal in Hm as ->; [|done..].
    apply endswith_spec. by exists "".
  - rewrite app_cons in Hm. destruct (decide (c = "*"%char)) as [->|Hc].
    + induction f as [|d f IHf]; rewrite glob_match_star in Hm;
        apply orb_true_iff in Hm as [Hm|Hm]; try done; try (by apply IH).
      apply endswith_cons. by apply IHf.
    + rewrite glob_match_cons in Hm by done. destruct f as [|d f]; [done|].
      apply andb_true_iff in Hm as [_ Hm]. apply endswith_cons. by apply IH.
Qed.

End GlobFacts.

Section WithoutRedis.
Context {V : Type}.
Variable redis_match fn_match : string → string → bool.
Implicit Types self : CacheService V.
Import PyStr.

Lemma result_mapM_total_in {A B} (f : A → result B) l :
  (∀ x, x ∈ l → ∃ y, f x = Ok y) → ∃ ys, result_mapM f l = Ok ys.
Proof.
  induction l as [|x l IH]; intros Hf; simpl; [eauto|].
  destruct (Hf x) as [y ->]; [apply list_elem_of_here|].
  destruct IH as [ys ->]; [|eauto].
  intros z Hz. apply Hf. by apply list_elem_of_further.
Qed.

(** X5: without Redis, [get_keys] never takes its exception path: the keys in
    memory and the names [glob] finds (all ending in [.cache]) always split,
    so the result is the sorted list of the collected set. *)
Theorem get_keys_without_redis self pattern namespace :
  redis self = None →
  (∀ f, fn_match (Keys.qualify pattern namespace +:+ ".cache") f = true →
        endswith f ".cache" = true) →
  ∃ keys,
    Keys.get_keys_set redis_match fn_match self pattern namespace = Ok keys ∧
    Keys.get_keys redis_match fn_match self pattern namespace = Keys.sorted_list keys.
Proof.
  intros Hr Hglob. unfold Keys.get_keys, Keys.get_keys_set.
  destruct (memory_keys_ok self (Keys.qualify pattern namespace)) as [mk ->].
  unfold Keys.redis_keys. rewrite Hr. simpl.
  destruct (result_mapM_total_in
              (λ f, Keys.strip_namespace f (splitext_stem f))
              (Keys.glob_cache_dir fn_match self (Keys.qualify pattern namespace)))
    as [fk Hfk].
  { intros f Hf. apply strip_namespace_cache_file, Hglob.
    unfold Keys.glob_cache_dir in Hf. destruct (cache_dir self); [|by apply elem_of_nil in Hf].
    by apply list_elem_of_filter in Hf as [Hm _]. }
  unfold Keys.file_keys. rewrite Hfk. simpl. eauto.
Qed.

(** X6: without Redis, [get_namespaces] completes its [try] block exactly when
    the cache directory exists; with the directory missing it returns the
    empty list whatever the memory cache holds. *)
Theorem get_namespaces_without_redis self :
  redis self = None →
  (∃ nss, Keys.get_namespaces_set redis_match self = Ok nss ∧
          Keys.get_namespaces redis_match self = Keys.sorted_list nss)
  ↔ is_Some (cache_dir self).
Proof.
  intros Hr. unfold Keys.get_namespaces, Keys.get_namespaces_set,
    Keys.memory_namespaces, Keys.redis_namespaces, Keys.file_namespaces, FS.listdir.
  rewrite Hr.
  destruct (result_mapM_total Keys.namespace_of
              (elements (dom (memory_cache self))) namespace_of_ok) as [mn ->].
  simpl. destruct (cache_dir self) as [d|]; simpl.
  - destruct (result_mapM_total
                (λ file, if endswith file ".cache" then Keys.namespace_of file else Ok None)
                (elements (dom (FS.files d)))) as [fn ->].
    { intros f. destruct (endswith f ".cache"); [apply namespace_of_ok|eauto]. }
    simpl. split; [eauto|]. intros _. eauto.
  - split; [by intros (? & ? & _)|]. by intros [? ?].
Qed.

End WithoutRedis.

(** ** The size of the file tier *)


Section FileSizeFacts.
Context {V : Type}.
Implicit Types self : CacheService V.
Import FileSize.

Lemma sum_cache_sizes_ok d names acc :
  (∀ name, name ∈ names → name ∈ dom (FS.files d)) →
  Stats.sum_cache_sizes (Some d) names acc
  = Ok (acc + foldr (λ name t, bytes_at (FS.files d) name + t) 0 names).
Proof.
  revert acc. induction names as [|name names IH]; intros acc Hin; simpl.
  - f_equal. lia.
  - assert (name ∈ dom (FS.files d)) as Hname by (apply Hin, list_elem_of_here).
    apply elem_of_dom in Hname as [c Hc].
    assert (∀ n, n ∈ names → n ∈ dom (FS.files d)) as Hin'.
    { intros n Hn. by apply Hin, list_elem_of_further. }
    unfold bytes_at at 1, cache_bytes. rewrite Hc. simpl.
    destruct (PyStr.endswith name ".cache").
    + rewrite IH by done. f_equal. lia.
    + rewrite IH by done. f_equal.
Qed.

Lemma foldr_bytes_perm (f : string → Z) l1 l2 :
  l1 ≡ₚ l2 → foldr (λ name t, f name + t) 0 l1 = foldr (λ name t, f name + t) 0 l2.
Proof. induction 1; simpl; lia. Qed.

Lemma foldr_bytes_ext (f g : string → Z) l :
  (∀ x, x ∈ l → f x = g x) →
  foldr (λ name t, f name + t) 0 l = foldr (λ name t, g name + t) 0 l.
Proof.
  induction l as [|x l IH]; intros Hfg; simpl; [done|].
  rewrite Hfg by apply list_elem_of_here. rewrite IH; [done|].
  intros y Hy. by apply Hfg, list_elem_of_further.
Qed.

Lemma foldr_bytes_total (files : gmap string string) :
  foldr (λ name t, bytes_at files name + t) 0 (elements (dom files))
  = total_cache_bytes files.
Proof.
  unfold total_cache_bytes.
  induction files as [|name content files Hfresh IH] using map_ind.
  - by rewrite dom_empty_L, elements_empty, map_fold_empty.
  - rewrite map_fold_insert_L; [|intros; lia|done].
    rewrite dom_insert_L.
    rewrite (foldr_bytes_perm _ _ (name :: elements (dom files))).
    2:{ apply elements_union_singleton. by apply not_elem_of_dom. }
    simpl. unfold bytes_at at 1. rewrite lookup_insert_eq. simpl.
    rewrite (foldr_bytes_ext _ (bytes_at files)).
    + rewrite IH. lia.
    + intros x Hx. apply elem_of_elements in Hx. unfold bytes_at.
      rewrite lookup_insert_ne; [done|]. intros ->.
      by apply not_elem_of_dom in Hfresh.
Qed.

Lemma file_cache_size_dir self d :
  cache_dir self = Some d →
  Stats._get_file_cache_size self = total_cache_bytes (FS.files d).
Proof.
  intros Hd. unfold Stats._get_file_cache_size. rewrite Hd.
  simpl. rewrite sum_cache_sizes_ok.
  - simpl. apply foldr_bytes_total.
  - intros name Hn. by apply elem_of_elements in Hn.
Qed.

Lemma total_cache_bytes_nonneg files : 0 ≤ total_cache_bytes files.
Proof.
  unfold total_cache_bytes. apply (map_fold_weak_ind (λ r _, 0 ≤ r)); [done|].
  intros name c m r _ Hr. unfold cache_bytes. destruct (PyStr.endswith _ _); lia.
Qed.

(** X7: [_get_file_cache_size] is the total length of the files of the cache
    directory whose names end in [.cache]; other files do not count; it is 0
    when the directory is missing, and never negative. *)
Theorem file_cache_size_total self :
  Stats._get_file_cache_size self
  = match cache_dir self with
    | Some d => total_cache_bytes (FS.files d)
    | None => 0
    end ∧
  0 ≤ Stats._get_file_cache_size self.
Proof.
  destruct (cache_dir self) as [d|] eqn:Hd.
  - rewrite (file_cache_size_dir self d Hd). split; [done|].
    apply total_cache_bytes_nonneg.
  - unfold Stats._get_file_cache_size. rewrite Hd. done.
Qed.

Lemma total_cache_bytes_insert files name content :
  total_cache_bytes (<[name := content]> files)
  = total_cache_bytes files - bytes_at files name + cache_bytes name content.
Proof.
  unfold bytes_at. destruct (files !! name) as [old|] eqn:Hold; simpl.
  - rewrite <-(insert_delete_eq files name content).
    rewrite <-(insert_delete_id files name old Hold) at 2.
    unfold total_cache_bytes.
    rewrite !map_fold_insert_L;
      [lia | first [apply lookup_delete_eq | intros; lia]..].
  - unfold total_cache_bytes. rewrite map_fold_insert_L; [|intros; lia|done].
    assert (cache_bytes name "" = 0) as Hzero.
    { unfold cache_bytes. by destruct (PyStr.endswith name ".cache"). }
    lia.
Qed.

(** X8: writing the file [name] into the cache directory changes
    [_get_file_cache_size] by the bytes of the new content minus the bytes of
    the content it replaces, both counted only when [name] ends in [.cache]. *)
Theorem file_cache_size_after_write self d name content :
  cache_dir self = Some d →
  Stats._get_file_cache_size
    (Service (stats self) (memory_cache self)
       (Some (FS.Dir (FS.writable d) (<[name := content]> (FS.files d))))
       (redis self))
  = Stats._get_file_cache_size self - bytes_at (FS.files d) name
    + cache_bytes name content.
Proof.
  intros Hd. rewrite (file_cache_size_dir self d Hd).
  rewrite (file_cache_size_dir _ (FS.Dir (FS.writable d) (<[name := content]> (FS.files d))))
    by done.
  apply total_cache_bytes_insert.
Qed.

End FileSizeFacts.

Section HealthMore.
Context {V : Type}.
Implicit Types self : CacheService V.


(** X10: [health_check] reports the file tier healthy exactly when the cache
    directory exists and is writable, and Redis healthy exactly when a client
    is configured and the server answers the ping. *)
Theorem health_check_flags self :
  (Health.file (Health.health_check self).2 = true ↔
   ∃ d, cache_dir self = Some d ∧ FS.writable d = true) ∧
  (Health.redis_ok (Health.health_check self).2 = true ↔
   ∃ r, redis self = Some r ∧ Redis.up r = true).
Proof.
  unfold Health.health_check.
  destruct (Health._check_file_system self) as [self1 file_ok] eqn:Hfs. simpl.
  split.
  - rewrite <-check_file_system_true. by rewrite Hfs.
  - rewrite check_redis_true.
    assert (redis self1 = redis self) as ->; [|done].
    by rewrite <-(check_file_system_redis self), Hfs.
Qed.

(** X11: a second [health_check] right after a first one gives the same
    report and leaves the service as the first one left it. *)
Theorem health_check_twice self :
  Health.health_check (Health.health_check self).1
  = ((Health.health_check self).1, (Health.health_check self).2).
Proof.
  unfold Health.health_check, Health._check_file_system, FS.write_file, FS.remove.
  destruct (cache_dir self) as [d|] eqn:Hd; simpl.
  - destruct (FS.writable d) eqn:Hw; simpl.
    + rewrite lookup_insert_eq. simpl. rewrite lookup_insert_eq. simpl.
      unfold Health.with_cache_dir, Health._check_redis. simpl.
      by rewrite !delete_insert_eq, delete_delete_eq.
    + rewrite Hd. simpl. by rewrite Hw.
  - by rewrite Hd.
Qed.

End HealthMore.

(** ** More on backup and restore *)

Section BackupFacts.
Context {V : Type}.
Import Backup.
Implicit Types self : CacheService V.
Implicit Types es : gmap string (entry V).

Lemma dump_pickle_Ok es name m es1 :
  dump_pickle es name m = Ok es1 →
  es1 = <[name := Pickle m]> es ∧ ∀ d, es !! name ≠ Some (Tree d).
Proof.
  unfold dump_pickle. destruct (es !! name) as [[| |]|]; try done;
    intros [= <-]; split; done.
Qed.

Lemma dump_pickle_Raise es name m e :
  dump_pickle es name m = Raise e →
  e = IsADirectoryError ∧ ∃ d, es !! name = Some (Tree d).
Proof.
  unfold dump_pickle. destruct (es !! name) as [[| |d]|]; try done.
  intros [= <-]. eauto.
Qed.

Lemma copytree_out_Ok es src name fault es1 :
  copytree_out es src name fault = (es1, Ok tt) →
  ∃ d, src = Some d ∧ es !! name = None ∧ fault = None ∧
       es1 = <[name := Tree d]> es.
Proof.
  unfold copytree_out. destruct src as [d|]; [|done].
  destruct (es !! name); [done|]. destruct fault; [done|].
  intros [= <-]. eauto.
Qed.

Lemma copytree_out_Raise es src name fault es1 e :
  copytree_out es src name fault = (es1, Raise e) →
  (es1 = es ∧
   ((src = None ∧ e = FileNotFoundError) ∨
    (is_Some src ∧ is_Some (es !! name) ∧ e = FileExistsError))) ∨
  (∃ d d1, src = Some d ∧ es !! name = None ∧ e = ShutilError ∧
           FS.writable d1 = FS.writable d ∧
           (∀ f content, FS.files d1 !! f = Some content →
                         ∃ rest, FS.files d !! f = Some (content +:+ rest)) ∧
           es1 = <[name := Tree d1]> es).
Proof.
  unfold copytree_out. destruct src as [d|].
  2:{ intros [= <- <-]. left. split; [done|]. by left. }
  destruct (es !! name) eqn:Hn.
  { intros [= <- <-]. left. split; [done|]. right. eauto. }
  destruct fault as [failed|]; [|done]. intros [= <- <-]. right.
  exists d, (FS.Dir (FS.writable d) (copied_files failed (FS.files d))).
  repeat (split; [done|]). split; [|done].
  simpl. intros f content. apply copied_files_lookup.
Qed.

Lemma memory_name_ne_file_name t1 t2 : memory_backup_name t1 ≠ file_backup_name t2.
Proof. unfold memory_backup_name, file_backup_name. intros Heq. by injection Heq. Qed.

Lemma backup_Ok_inv self bd now fault bd' :
  backup self bd now fault = (bd', Ok tt) →
  ∃ d,
    cache_dir self = Some d ∧
    (∀ t, default ∅ bd !! memory_backup_name now ≠ Some (Tree t)) ∧
    default ∅ bd !! file_backup_name now = None ∧
    fault = None ∧
    (∀ r, redis self = Some r → Redis.up r = true) ∧
    bd' = Some (<[file_backup_name now := Tree d]>
                  (<[memory_backup_name now := Pickle (memory_cache self)]>
                     (default ∅ bd))).
Proof.
  unfold backup. set (es := default ∅ bd).
  destruct (dump_pickle es _ _) as [es1|] eqn:H1; [|done].
  apply dump_pickle_Ok in H1 as [-> Hnodir].
  destruct (copytree_out _ _ _ _) as [es2 [[]|]] eqn:H2; [|done].
  apply copytree_out_Ok in H2 as (d & Hd & Hfresh & -> & ->).
  rewrite lookup_insert_ne in Hfresh by apply memory_name_ne_file_name.
  intros Hret. exists d. do 4 (split; [done|]).
  destruct (redis self) as [r|]; simpl in Hret.
  - unfold redis_save in Hret. destruct (Redis.up r) eqn:Hup; [|done].
    injection Hret as <-. split; [|done]. by intros r' [= <-].
  - injection Hret as <-. split; [|done]. by intros.
Qed.



(** X14: a second [backup] within the same second as a successful one raises
    [FileExistsError] after overwriting the memory snapshot: the directory
    then pairs the second service's memory with the first one's files. *)
Theorem backup_same_second self1 self2 bd now fault1 fault2 bd1 :
  backup self1 bd now fault1 = (bd1, Ok tt) →
  is_Some (cache_dir self2) →
  ∃ d1,
    cache_dir self1 = Some d1 ∧
    backup self2 bd1 now fault2
    = (Some (<[file_backup_name now := Tree d1]>
               (<[memory_backup_name now := Pickle (memory_cache self2)]>
                  (default ∅ bd))),
       Raise FileExistsError).
Proof.
  intros Hfirst [d2 Hd2].
  apply backup_Ok_inv in Hfirst as (d1 & Hd1 & _ & _ & _ & _ & ->).
  exists d1. split; [done|].
  unfold backup, dump_pickle, copytree_out. simpl.
  rewrite lookup_insert_ne by (apply not_eq_sym, memory_name_ne_file_name).
  rewrite lookup_insert_eq. rewrite Hd2.
  rewrite lookup_insert_ne by apply memory_name_ne_file_name.
  rewrite lookup_insert_eq.
  f_equal. f_equal.
  rewrite (insert_insert_ne _ (memory_backup_name now) (file_backup_name now))
    by apply memory_name_ne_file_name.
  by rewrite insert_insert_eq.
Qed.

(** What [latest] returns is a name of the directory with the prefix asked
    for. *)
Lemma latest_Ok_elem prefix es x :
  latest prefix (Some es) = Ok x → x ∈ dom es ∧ PyStr.startswith x prefix = true.
Proof.
  unfold latest, PyStr.index_last. simpl.
  destruct (last _) as [y|] eqn:Hlast; [|done]. intros [= <-].
  apply last_Some_elem_of in Hlast. rewrite merge_sort_Permutation in Hlast.
  apply list_elem_of_filter in Hlast as [Hp Hy]. by apply elem_of_elements in Hy.
Qed.

Lemma latest_None_raise prefix : latest (V:=V) prefix None = Raise FileNotFoundError.
Proof. done. Qed.

Lemma restore_Ok_inv self bd io self' :
  restore self bd io = (self', Ok tt) →
  ∃ mn m fn d d0,
    latest "memory_cache_" bd = Ok mn ∧ entry_at bd mn = Some (Pickle m) ∧
    latest "file_cache_" bd = Ok fn ∧ entry_at bd fn = Some (Tree d) ∧
    cache_dir self = Some d0 ∧ (FS.writable d0 = true ∨ FS.files d0 = ∅) ∧
    io = no_faults ∧
    (redis self = None ∨ ∃ rn, latest "redis_cache_" bd = Ok rn) ∧
    self' = Service (stats self) m (Some d) (redis self).
Proof.
  unfold restore.
  destruct (latest "memory_cache_" bd) as [mn|] eqn:Hmn; [|done].
  destruct (load_pickle bd mn) as [m|] eqn:Hm; [|done].
  apply load_pickle_Ok in Hm.
  destruct (latest "file_cache_" bd) as [fn|] eqn:Hfn; [|done].
  destruct (rmtree _ _) as [gone [[]|]] eqn:Hrm; [|done].
  apply rmtree_Ok in Hrm as (-> & Hrmf & d0 & Hd0 & Hw). simpl in Hd0.
  change (cache_dir (with_cache_dir _ None)) with (@None FS.dir).
  destruct (copytree_in bd fn None _) as [d' [[]|]] eqn:Hcp; [|done].
  apply copytree_in_Ok in Hcp as (d & Hd & -> & _ & Hcpf).
  assert (io = no_faults) as Hio.
  { destruct io as [rf cf]. simpl in Hrmf, Hcpf. by subst. }
  intros Hret. exists mn, m, fn, d, d0. do 7 (split; [done|]).
  simpl in Hret. destruct (redis self) as [r|] eqn:Hr.
  - destruct (latest "redis_cache_" bd) as [rn|] eqn:Hrn; simpl in Hret; [|done].
    injection Hret as <-. unfold with_cache_dir, with_memory. simpl.
    rewrite Hr. eauto.
  - injection Hret as <-. unfold with_cache_dir, with_memory. simpl.
    rewrite Hr. eauto.
Qed.

(** X17: [restore] succeeds exactly when a memory snapshot is found and
    unpickles, a file snapshot is found and is a directory, the live cache
    directory exists and can be removed, the file system raises no error on
    the way and, with Redis configured, some [redis_cache_*] name exists; it
    then installs both snapshots and keeps the counters and the Redis
    handle. *)
Theorem restore_succeeds_iff self bd io self' :
  restore self bd io = (self', Ok tt) ↔
  ∃ mn m fn d d0,
    latest "memory_cache_" bd = Ok mn ∧ entry_at bd mn = Some (Pickle m) ∧
    latest "file_cache_" bd = Ok fn ∧ entry_at bd fn = Some (Tree d) ∧
    cache_dir self = Some d0 ∧ (FS.writable d0 = true ∨ FS.files d0 = ∅) ∧
    io = no_faults ∧
    (redis self = None ∨ ∃ rn, latest "redis_cache_" bd = Ok rn) ∧
    self' = Service (stats self) m (Some d) (redis self).
Proof.
  split; [apply restore_Ok_inv|].
  intros (mn & m & fn & d & d0 & Hmn & Hm & Hfn & Hd & Hd0 & Hw & -> & Hredis & ->).
  unfold restore. rewrite Hmn. unfold load_pickle. rewrite Hm, Hfn.
  unfold rmtree. simpl. rewrite Hd0.
  assert (FS.writable d0 || bool_decide (FS.files d0 = ∅) = true) as ->.
  { destruct Hw as [-> | Hw]; [done|].
    rewrite (bool_decide_eq_true_2 _ Hw). apply orb_true_r. }
  unfold copytree_in. simpl. rewrite Hd. simpl.
  unfold with_cache_dir, with_memory. simpl.
  destruct Hredis as [Hr|[rn Hrn]].
  - by rewrite Hr.
  - destruct (redis self); [|done]. by rewrite Hrn.
Qed.

(** X16: with Redis configured, [restore] never succeeds on a directory that
    only [backup] has written to: [backup] writes no [redis_cache_*] file, so
    the last selection of [restore] raises. *)
Theorem restore_with_redis_fails self self0 bd now fault io :
  is_Some (redis self) →
  (∀ f, f ∈ dom (default ∅ bd) → PyStr.startswith f "redis_cache_" = false) →
  (restore self (backup self0 bd now fault).1 io).2 ≠ Ok tt.
Proof.
  intros [r Hr] Hnone Hok.
  destruct (restore self (backup self0 bd now fault).1 io) as [self' res] eqn:Hres.
  simpl in Hok. subst res.
  apply restore_Ok_inv in Hres
    as (mn & m & fn & d & d0 & _ & _ & _ & _ & _ & _ & _ & [Hnor|[rn Hrn]] & _);
    [congruence|].
  assert ((backup self0 bd now fault).1
          = Some (default ∅ (backup self0 bd now fault).1)) as Hsome.
  { unfold backup. repeat case_match; done. }
  rewrite Hsome in Hrn. apply latest_Ok_elem in Hrn as [Hin Hprefix].
  apply backup_writes_no_redis_snapshot in Hin as [Hin|[->| ->]].
  - by rewrite Hnone in Hprefix.
  - done.
  - done.
Qed.

(** In a directory whose snapshots with the given prefix are the one of [now]
    and older ones, [latest] picks the one of [now]. *)
Lemma latest_newest prefix suffix es (ts : list datetime) now :
  let name t := prefix +:+ strftime t +:+ suffix in
  valid_datetime now →
  Forall (λ t, valid_datetime t ∧ (chrono t < chrono now)%N) ts →
  name now ∈ dom es →
  (∀ f, f ∈ dom es → PyStr.startswith f prefix = true →
        f = name now ∨ f ∈ name <$> ts) →
  latest prefix (Some es) = Ok (name now).
Proof.
  intros name Hnow Hts Hin Hall. unfold latest, PyStr.index_last. simpl.
  set (snaps := filter (λ f, PyStr.startswith f prefix = true) (elements (dom es))).
  assert (name now ∈ merge_sort String.le snaps) as Hnow_in.
  { rewrite merge_sort_Permutation. apply list_elem_of_filter.
    split; [apply startswith_app | by apply elem_of_elements]. }
  destruct (last (merge_sort String.le snaps)) as [x|] eqn:Hlast.
  2:{ apply last_None in Hlast. rewrite Hlast in Hnow_in.
      by apply elem_of_nil in Hnow_in. }
  f_equal.
  assert (String.le (name now) x) as Hle.
  { eapply sorted_last_max; [|exact Hlast|exact Hnow_in].
    apply StronglySorted_merge_sort; apply _. }
  apply last_Some_elem_of in Hlast. rewrite merge_sort_Permutation in Hlast.
  apply list_elem_of_filter in Hlast as [Hp Hx]. apply elem_of_elements in Hx.
  destruct (Hall x Hx Hp) as [->|Hold]; [done|].
  apply list_elem_of_fmap in Hold as (t & -> & Ht).
  eapply Forall_forall in Hts; [|exact Ht]. destruct Hts as [Hvalid Hlt].
  apply (snapshot_name_le prefix suffix now t Hnow Hvalid) in Hle. lia.
Qed.

(** X15: [backup] followed by [restore] brings the state back: if [backup]
    succeeds at a moment later than every snapshot already in the directory,
    then [restore] into a service without Redis whose cache directory exists
    and is writable succeeds, when the file system raises no error, and
    installs the memory cache and the cache directory of the service that was
    backed up. *)
Theorem backup_restore_roundtrip self target bd now fault bd'
    (ts : list datetime) :
  backup self bd now fault = (bd', Ok tt) →
  valid_datetime now →
  Forall (λ t, valid_datetime t ∧ (chrono t < chrono now)%N) ts →
  Forall (λ f, f ∈ memory_backup_name <$> ts)
    (filter (λ f, PyStr.startswith f "memory_cache_" = true)
       (elements (dom (default ∅ bd)))) →
  Forall (λ f, f ∈ file_backup_name <$> ts)
    (filter (λ f, PyStr.startswith f "file_cache_" = true)
       (elements (dom (default ∅ bd)))) →
  redis target = None →
  (∃ d0, cache_dir target = Some d0 ∧ FS.writable d0 = true) →
  restore target bd' no_faults
  = (Service (stats target) (memory_cache self) (cache_dir self) None, Ok tt).
Proof.
  intros Hbackup Hnow Hts Hmem Hfile Hredis (d0 & Hd0 & Hw).
  apply backup_Ok_inv in Hbackup as (d & Hd & _ & _ & _ & _ & ->).
  set (es := default ∅ bd) in *.
  set (es2 := <[file_backup_name now := Tree d]>
                (<[memory_backup_name now := Pickle (memory_cache self)]> es)).
  assert (∀ f, f ∈ dom es2 ↔
               f = file_backup_name now ∨ f = memory_backup_name now ∨ f ∈ dom es)
    as Hdom.
  { intros f. unfold es2. rewrite !dom_insert_L, !elem_of_union, !elem_of_singleton.
    done. }
  assert (latest "memory_cache_" (Some es2) = Ok (memory_backup_name now)) as Hlm.
  { apply (latest_newest "memory_cache_" ".pkl" es2 ts now Hnow Hts).
    - apply Hdom. auto.
    - intros f Hf Hp. apply Hdom in Hf as [->|[->|Hf]]; [done|by left|right].
      eapply Forall_forall in Hmem; [exact Hmem|].
      apply list_elem_of_filter. by rewrite elem_of_elements. }
  assert (latest "file_cache_" (Some es2) = Ok (file_backup_name now)) as Hlf.
  { rewrite <-(app_empty_r (file_backup_name now)).
    unfold file_backup_name. rewrite app_assoc_str.
    apply (latest_newest "file_cache_" "" es2 ts now Hnow Hts).
    - rewrite app_empty_r. apply Hdom. auto.
    - intros f Hf Hp. rewrite app_empty_r.
      apply Hdom in Hf as [->|[->|Hf]]; [by left|done|right].
      eapply Forall_forall in Hfile.
      + apply list_elem_of_fmap in Hfile as (t & -> & Ht).
        apply list_elem_of_fmap. exists t. by rewrite app_empty_r.
      + apply list_elem_of_filter. by rewrite elem_of_elements. }
  assert (es2 !! memory_backup_name now = Some (Pickle (memory_cache self))) as Hm.
  { unfold es2. rewrite lookup_insert_ne by (apply not_eq_sym, memory_name_ne_file_name).
    apply lookup_insert_eq. }
  assert (es2 !! file_backup_name now = Some (Tree d)) as Hf.
  { unfold es2. apply lookup_insert_eq. }
  rewrite (restore_runs target es2 _ _ _ _ d0 Hlm Hm Hlf Hf Hd0 Hw Hredis).
  by rewrite Hd.
Qed.

(** X23: whatever its outcome, [restore] leaves the counters and the Redis
    handle of the service as they were. *)
Theorem restore_frame self bd io :
  stats (restore self bd io).1 = stats self ∧
  redis (restore self bd io).1 = redis self.
Proof.
  unfold restore. repeat case_match; simpl; done.
Qed.

End BackupFacts.

(** ** More on the decorator *)


Section MemoMore.
Import Memo MemoProgress.
Context {C R : Type}.
Variable cache_get : C → string → C * option R.
Variable cache_set : C → string → option R → C.
Variable func : nat → option R.
Variable key : string.

Local Abbreviation step := (Memo.step cache_get cache_set func key).
Local Abbreviation run := (Memo.run cache_get cache_set func key).

(** *** A result of [None] is never reused *)

Lemma rerun_step n i w :
  (∀ m, func m = None) →
  (∀ c, (cache_get c key).2 = None →
        (cache_get (cache_set (cache_get c key).1 key None) key).2 = None) →
  (i < n)%nat →
  length (tasks w) = n ∧ calls w = i ∧
  (∀ j, (j < i)%nat → tasks w !! j = Some (Done None)) ∧
  (∀ j, (i ≤ j < n)%nat → tasks w !! j = Some Start) ∧
  (cache_get (w_cache w) key).2 = None →
  length (tasks (run [i; i; i] w)) = n ∧ calls (run [i; i; i] w) = S i ∧
  (∀ j, (j < S i)%nat → tasks (run [i; i; i] w) !! j = Some (Done None)) ∧
  (∀ j, (S i ≤ j < n)%nat → tasks (run [i; i; i] w) !! j = Some Start) ∧
  (cache_get (w_cache (run [i; i; i] w)) key).2 = None.
Proof.
  intros Hnone Hstays Hi (Hlen & Hcalls & Hdone & Hstart & Hmiss).
  assert (tasks w !! i = Some Start) as Hti by (apply Hstart; lia).
  change (run [i; i; i] w) with (step (step (step w i) i) i).
  pose proof (Hstays (w_cache w) Hmiss) as Hnext.
  destruct (cache_get (w_cache w) key) as [c1 res] eqn:Hget.
  simpl in Hmiss, Hnext. subst res.
  rewrite (three_steps_miss cache_get cache_set func key w i c1 Hti Hget).
  rewrite Hnone. simpl. rewrite length_insert.
  split; [done|]. split; [lia|]. split; [|split; [|done]].
  - intros j Hj. destruct (decide (j = i)) as [->|Hne].
    + apply list_lookup_insert_eq. lia.
    + rewrite list_lookup_insert_ne by lia. apply Hdone. lia.
  - intros j Hj. rewrite list_lookup_insert_ne by lia. apply Hstart. lia.
Qed.

(** X18: a wrapped operation that returns [None] is never served from the
    cache: [n] calls that do not overlap run it [n] times, since the wrapper
    takes the [None] that [get] returns for the stored result as a miss. *)
Theorem none_is_never_reused n c0 :
  (cache_get c0 key).2 = None →
  (∀ m, func m = None) →
  (∀ c, (cache_get c key).2 = None →
        (cache_get (cache_set (cache_get c key).1 key None) key).2 = None) →
  calls (run (one_by_one n) (spawn n c0)) = n ∧
  tasks (run (one_by_one n) (spawn n c0)) = replicate n (Done None).
Proof.
  intros Hmiss Hnone Hstays.
  assert (∀ i, (i ≤ n)%nat →
    length (tasks (run (one_by_one i) (spawn n c0))) = n ∧
    calls (run (one_by_one i) (spawn n c0)) = i ∧
    (∀ j, (j < i)%nat →
          tasks (run (one_by_one i) (spawn n c0)) !! j = Some (Done None)) ∧
    (∀ j, (i ≤ j < n)%nat →
          tasks (run (one_by_one i) (spawn n c0)) !! j = Some Start) ∧
    (cache_get (w_cache (run (one_by_one i) (spawn n c0))) key).2 = None) as Hinv.
  { induction i as [|i IH]; intros Hi.
    - simpl. rewrite length_replicate. split; [done|]. split; [done|].
      split; [intros; lia|]. split; [|done].
      intros j Hj. apply lookup_replicate_2. lia.
    - rewrite one_by_one_S, run_app. apply (rerun_step n); [done | done | lia |].
      apply IH. lia. }
  destruct (Hinv n) as (Hlen & Hcalls & Hdone & _ & _); [lia|].
  split; [done|]. apply list_eq. intros j.
  destruct (decide (j < n)%nat) as [Hj|Hj].
  - rewrite Hdone by done. symmetry. by apply lookup_replicate_2.
  - rewrite !lookup_ge_None_2; [done|rewrite length_replicate; lia|lia].
Qed.

(** *** Every call returns after three resumptions *)

Lemma step_phase w i j :
  (j < length (tasks w))%nat →
  ∃ t t', tasks w !! j = Some t ∧ tasks (step w i) !! j = Some t' ∧
          length (tasks (step w i)) = length (tasks w) ∧
          if decide (i = j) then (Nat.min 3 (S (phase t)) ≤ phase t')%nat
          else t' = t.
Proof.
  intros Hj. destruct (lookup_lt_is_Some_2 (tasks w) j Hj) as [t Ht].
  exists t. unfold Memo.step.
  destruct (decide (i = j)) as [->|Hne].
  - rewrite Ht. destruct t as [|m|r|r]; simpl.
    + destruct (cache_get (w_cache w) key) as [c1 [v|]]; simpl;
        eexists; (split; [done|]);
        rewrite list_lookup_insert_eq by done; rewrite length_insert;
        (split; [done|]); (split; [done|]); simpl; lia.
    + eexists. split; [done|]. rewrite list_lookup_insert_eq by done.
      rewrite length_insert. split; [done|]. split; [done|]. simpl. lia.
    + eexists. split; [done|]. rewrite list_lookup_insert_eq by done.
      rewrite length_insert. split; [done|]. split; [done|]. simpl. lia.
    + eexists. split; [done|]. split; [done|]. split; [done|]. simpl. lia.
  - exists t. split; [done|].
    destruct (tasks w !! i) as [[|m|r|r]|] eqn:Hi; simpl; try done.
    + destruct (cache_get (w_cache w) key) as [c1 [v|]]; simpl;
        rewrite list_lookup_insert_ne by done; by rewrite length_insert.
    + rewrite list_lookup_insert_ne by done. by rewrite length_insert.
    + rewrite list_lookup_insert_ne by done. by rewrite length_insert.
Qed.

Lemma run_phase schedule w j t :
  tasks w !! j = Some t →
  ∃ t', tasks (run schedule w) !! j = Some t' ∧
        (Nat.min 3 (phase t + count_occ Nat.eq_dec schedule j) ≤ phase t')%nat.
Proof.
  revert w t. induction schedule as [|i schedule IH]; intros w t Ht.
  - exists t. split; [done|]. cbn [count_occ]. rewrite Nat.add_0_r. apply Nat.le_min_r.
  - change (run (i :: schedule) w) with (run schedule (step w i)).
    destruct (step_phase w i j) as (t0 & t1 & Ht0 & Ht1 & _ & Hphase).
    { by eapply lookup_lt_Some. }
    assert (t0 = t) as -> by congruence.
    destruct (IH _ _ Ht1) as (t' & Ht' & Hle). exists t'. split; [done|].
    cbn [count_occ]. destruct (Nat.eq_dec i j) as [->|Hne].
    + destruct (decide (j = j)); [|done]. lia.
    + destruct (decide (i = j)); [done|]. subst t1. lia.
Qed.

(** X19: under every schedule a call of the wrapper has returned once it has
    been resumed three times: it never waits for another call. *)
Theorem every_call_returns schedule n c i :
  (i < n)%nat →
  (3 ≤ count_occ Nat.eq_dec schedule i)%nat →
  ∃ r, tasks (run schedule (spawn n c)) !! i = Some (Done r).
Proof.
  intros Hi Hocc.
  destruct (run_phase schedule (spawn n c) i Start) as (t & Ht & Hphase).
  { simpl. by apply lookup_replicate_2. }
  assert (3 ≤ phase t)%nat as H3 by (change (phase Start) with 0%nat in Hphase; lia).
  destruct t as [|m|r|r]; simpl in H3; [lia..|]. eauto.
Qed.

End MemoMore.

(** ** Monitoring *)


Section MonitorFacts.
Context {V A : Type}.
Variable calc_hit_rate calc_ops_rate : CacheService V → result A.
Variable clock : nat → string.
Variable states : nat → CacheService V.
Import Monitor.

Local Abbreviation monitor := (Monitor.monitor calc_hit_rate calc_ops_rate clock states).
Local Abbreviation take_sample := (Monitor.take_sample calc_hit_rate calc_ops_rate clock states).

Lemma result_mapM_length {X Y} (f : X → result Y) l ys :
  result_mapM f l = Ok ys → length ys = length l.
Proof.
  revert ys. induction l as [|x l IH]; intros ys; simpl.
  - by intros [= <-].
  - destruct (f x); [|done]. destruct (result_mapM f l) as [ys'|]; [|done].
    intros [= <-]. simpl. f_equal. by apply IH.
Qed.

Lemma result_mapM_fmap {X Y} (f : X → result Y) (g : X → Y) l :
  (∀ x, x ∈ l → f x = Ok (g x)) → result_mapM f l = Ok (g <$> l).
Proof.
  induction l as [|x l IH]; intros Hf; simpl; [done|].
  rewrite Hf by apply list_elem_of_here.
  rewrite IH; [done|]. intros y Hy. by apply Hf, list_elem_of_further.
Qed.

(** X20: [monitor] returns either no sample or exactly
    [duration // interval] samples; it returns none when [interval] is 0 (the
    division raises inside the [try]) and when the quotient is not
    positive. *)
Theorem monitor_length duration interval :
  (monitor duration interval = [] ∨
   length (monitor duration interval) = Z.to_nat (duration / interval)) ∧
  (interval = 0 → monitor duration interval = []) ∧
  (duration / interval ≤ 0 → monitor duration interval = []).
Proof.
  unfold Monitor.monitor, floordiv. split; [|split].
  - destruct (decide (interval = 0)); [by left|].
    destruct (result_mapM _ _) as [ys|] eqn:Hys; simpl; [|by left].
    right. apply result_mapM_length in Hys. by rewrite Hys, length_seq.
  - intros ->. done.
  - intros Hle. destruct (decide (interval = 0)); [done|].
    replace (Z.to_nat (duration / interval)) with 0%nat by lia. done.
Qed.

(** X21: [monitor] keeps no partial history: when Redis is configured and does
    not answer at one of the iterations, all samples, including those taken
    before, are lost and the result is the empty list. *)
Theorem monitor_all_or_nothing duration interval (k : nat) r :
  interval ≠ 0 →
  (k < Z.to_nat (duration / interval))%nat →
  redis (states k) = Some r → Redis.up r = false →
  monitor duration interval = [].
Proof.
  intros Hi Hk Hr Hdown. unfold Monitor.monitor, floordiv.
  destruct (decide (interval = 0)); [done|].
  destruct (result_mapM_raise take_sample (seq 0 (Z.to_nat (duration / interval))) k)
    as [e ->]; [|..|done].
  - apply elem_of_seq. lia.
  - unfold Monitor.take_sample. destruct (calc_hit_rate (states k)); [|eauto].
    simpl. destruct (calc_ops_rate (states k)); [|eauto]. simpl.
    rewrite Hr. unfold Redis.dbsize. rewrite Hdown. simpl. eauto.
Qed.

(** X22: when the rate helpers return and Redis, where configured, answers at
    every iteration, [monitor] returns one sample per iteration, in order,
    with the size of the memory cache, the size of the file tier and, exactly
    when Redis is configured, its number of keys. *)
Theorem monitor_history duration interval (hr ops : nat → A) :
  interval ≠ 0 →
  (∀ k, (k < Z.to_nat (duration / interval))%nat →
        calc_hit_rate (states k) = Ok (hr k) ∧
        calc_ops_rate (states k) = Ok (ops k) ∧
        ∀ r, redis (states k) = Some r → Redis.up r = true) →
  monitor duration interval
  = (λ k, Sample (clock k) (Z.of_nat (size (memory_cache (states k))))
            (Stats._get_file_cache_size (states k)) (hr k) (ops k)
            ((λ r, Z.of_nat (size (Redis.store r))) <$> redis (states k)))
    <$> seq 0 (Z.to_nat (duration / interval)).
Proof.
  intros Hi Hok. unfold Monitor.monitor, floordiv.
  destruct (decide (interval = 0)); [done|].
  erewrite result_mapM_fmap; [done|].
  intros k Hk. apply elem_of_seq in Hk.
  destruct (Hok k) as (Hhr & Hops & Hup); [lia|].
  unfold Monitor.take_sample. rewrite Hhr, Hops. simpl.
  destruct (redis (states k)) as [r|]; simpl; [|done].
  unfold Redis.dbsize. by rewrite (Hup r eq_refl).
Qed.

End MonitorFacts.

(** ** Instances of the further properties *)

Lemma get_keys_spec_witness :
  Keys.get_keys_set Glob.glob_match Glob.glob_match Samples.with_redis "*"
    (Some "factcheck")
  = Ok (list_to_set ["claim:123"; "claim:456"]) ∧
  StronglySorted String.le
    (Keys.get_keys Glob.glob_match Glob.glob_match Samples.with_redis "*"
       (Some "factcheck")) ∧
  NoDup
    (Keys.get_keys Glob.glob_match Glob.glob_match Samples.with_redis "*"
       (Some "factcheck")).
Proof.
  assert (Keys.get_keys_set Glob.glob_match Glob.glob_match Samples.with_redis "*"
            (Some "factcheck")
          = Ok (list_to_set ["claim:123"; "claim:456"])) as Hset
    by (vm_compute; reflexivity).
  split; [exact Hset|].
  destruct (get_keys_spec Glob.glob_match Glob.glob_match Samples.with_redis "*"
              (Some "factcheck") _ Hset) as (Hsorted & Hnodup & _).
  split; [exact Hsorted | exact Hnodup].
Defined.

Lemma get_namespaces_spec_witness :
  Keys.get_namespaces_set Glob.glob_match Samples.with_redis
  = Ok (list_to_set ["factcheck"]) ∧
  StronglySorted String.le (Keys.get_namespaces Glob.glob_match Samples.with_redis) ∧
  NoDup (Keys.get_namespaces Glob.glob_match Samples.with_redis).
Proof.
  assert (Keys.get_namespaces_set Glob.glob_match Samples.with_redis
          = Ok (list_to_set ["factcheck"])) as Hset
    by (vm_compute; reflexivity).
  split; [exact Hset|].
  destruct (get_namespaces_spec Glob.glob_match Samples.with_redis _ Hset)
    as (Hsorted & Hnodup & _).
  split; [exact Hsorted | exact Hnodup].
Defined.

Lemma get_keys_memory_only_witness :
  (redis Samples.no_cache_dir = None ∧ cache_dir Samples.no_cache_dir = None ∧
   "ns" ≠ "" ∧ PyStr.contains PyStr.colon "ns" = false ∧
   PyStr.contains PyStr.star "ns" = false) ∧
  ("a" ∈ Keys.get_keys Glob.glob_match Glob.glob_match Samples.no_cache_dir "*"
           (Some "ns")
   ↔ "ns" +:+ ":" +:+ "a" ∈ dom (memory_cache Samples.no_cache_dir)).
Proof.
  split; [repeat split; discriminate|].
  apply (get_keys_memory_only Glob.glob_match Glob.glob_match Samples.no_cache_dir
           "ns" "a"); [reflexivity | reflexivity | discriminate | reflexivity
                      | reflexivity].
Defined.

Lemma namespaced_cache_files f :
  f ∈ dom (FS.files MoreSamples.namespaced_dir) →
  PyStr.endswith f ".cache" = true → PyStr.contains PyStr.colon f = false.
Proof.
  unfold MoreSamples.namespaced_dir.
  change (FS.files (FS.Dir true ?m)) with m.
  rewrite dom_insert_L, dom_singleton_L, elem_of_union, !elem_of_singleton.
  intros [-> | ->] Hend; [reflexivity | discriminate Hend].
Defined.

Lemma get_namespaces_of_memory_witness :
  (redis MoreSamples.namespaced = None ∧
   cache_dir MoreSamples.namespaced = Some MoreSamples.namespaced_dir ∧
   ∀ f, f ∈ dom (FS.files MoreSamples.namespaced_dir) →
        PyStr.endswith f ".cache" = true → PyStr.contains PyStr.colon f = false) ∧
  ("factcheck" ∈ Keys.get_namespaces Glob.glob_match MoreSamples.namespaced
   ↔ PyStr.contains PyStr.colon "factcheck" = false ∧
     ∃ raw, "factcheck" +:+ ":" +:+ raw ∈ dom (memory_cache MoreSamples.namespaced)).
Proof.
  split; [split; [reflexivity | split; [reflexivity | exact namespaced_cache_files]]|].
  exact (get_namespaces_of_memory Glob.glob_match MoreSamples.namespaced
           MoreSamples.namespaced_dir "factcheck" eq_refl eq_refl
           namespaced_cache_files).
Defined.

Lemma get_keys_without_redis_witness :
  (redis MoreSamples.namespaced = None ∧
   ∀ f, Glob.glob_match (Keys.qualify "*" None +:+ ".cache") f = true →
        PyStr.endswith f ".cache" = true) ∧
  ∃ keys,
    Keys.get_keys_set Glob.glob_match Glob.glob_match MoreSamples.namespaced "*" None
    = Ok keys ∧
    Keys.get_keys Glob.glob_match Glob.glob_match MoreSamples.namespaced "*" None
    = Keys.sorted_list keys.
Proof.
  assert (∀ f, Glob.glob_match (Keys.qualify "*" None +:+ ".cache") f = true →
               PyStr.endswith f ".cache" = true) as Hglob.
  { intros f. apply (glob_match_suffix "*" ".cache" f); reflexivity. }
  split; [split; [reflexivity | exact Hglob]|].
  exact (get_keys_without_redis Glob.glob_match Glob.glob_match
           MoreSamples.namespaced "*" None eq_refl Hglob).
Defined.

Lemma get_namespaces_without_redis_witness :
  redis Samples.fresh = None ∧
  ((∃ nss, Keys.get_namespaces_set Glob.glob_match Samples.fresh = Ok nss ∧
           Keys.get_namespaces Glob.glob_match Samples.fresh = Keys.sorted_list nss)
   ↔ is_Some (cache_dir Samples.fresh)).
Proof.
  split; [reflexivity|].
  exact (get_namespaces_without_redis Glob.glob_match Samples.fresh eq_refl).
Defined.

Lemma file_cache_size_after_write_witness :
  cache_dir MoreSamples.namespaced = Some MoreSamples.namespaced_dir ∧
  Stats._get_file_cache_size
    (Service (stats MoreSamples.namespaced) (memory_cache MoreSamples.namespaced)
       (Some (FS.Dir (FS.writable MoreSamples.namespaced_dir)
                (<[ "9b1c.cache" := "FALSE" ]>
                   (FS.files MoreSamples.namespaced_dir))))
       (redis MoreSamples.namespaced))
  = Stats._get_file_cache_size MoreSamples.namespaced
    - FileSize.bytes_at (FS.files MoreSamples.namespaced_dir) "9b1c.cache"
    + FileSize.cache_bytes "9b1c.cache" "FALSE".
Proof.
  split; [reflexivity|].
  exact (file_cache_size_after_write MoreSamples.namespaced
           MoreSamples.namespaced_dir "9b1c.cache" "FALSE" eq_refl).
Defined.

Example file_cache_size_ex :
  Stats._get_file_cache_size MoreSamples.namespaced = 8.
Proof. vm_compute. reflexivity. Qed.


(** A copy that met errors leaves a file snapshot that [restore] will take
    for a good one. *)
Example backup_cut_short :
  (Backup.backup Samples.two_files None Samples.march_1
     (Some MoreSamples.copy_cut_short)).2 = Raise ShutilError ∧
  Backup.entry_at MoreSamples.cut_short_backup "file_cache_20240301_235959"
  = Some (Backup.Tree (FS.Dir true {[ "a.cache" := "" ]})) ∧
  Backup.restore Samples.fresh MoreSamples.cut_short_backup Backup.no_faults
  = (Service (stats Samples.fresh) (memory_cache Samples.two_files)
       (Some (FS.Dir true {[ "a.cache" := "" ]})) None,
     Ok tt).
Proof. repeat split; vm_compute; reflexivity. Qed.

Lemma backup_same_second_witness :
  (Backup.backup Samples.in_memory None Samples.march_1 None
   = (MoreSamples.one_backup, Ok tt) ∧
   is_Some (cache_dir Samples.in_files)) ∧
  ∃ d1,
    cache_dir Samples.in_memory = Some d1 ∧
    Backup.backup Samples.in_files MoreSamples.one_backup Samples.march_1 None
    = (Some (<[Backup.file_backup_name Samples.march_1 := Backup.Tree d1]>
               (<[Backup.memory_backup_name Samples.march_1
                  := Backup.Pickle (memory_cache Samples.in_files)]>
                  (default ∅ None))),
       Raise FileExistsError).
Proof.
  assert (Backup.backup Samples.in_memory None Samples.march_1 None
          = (MoreSamples.one_backup, Ok tt)) as Hrun.
  { apply injective_projections; [reflexivity | vm_compute; reflexivity]. }
  assert (is_Some (cache_dir Samples.in_files)) as Hdir by (eexists; reflexivity).
  split; [split; [exact Hrun | exact Hdir]|].
  exact (backup_same_second Samples.in_memory Samples.in_files None Samples.march_1
           None None MoreSamples.one_backup Hrun Hdir).
Defined.

Lemma backup_restore_roundtrip_witness :
  (Backup.backup Samples.in_files MoreSamples.one_backup Samples.march_2 None
   = (MoreSamples.second_backup, Ok tt) ∧
   Backup.valid_datetime Samples.march_2 ∧
   Forall (λ t, Backup.valid_datetime t ∧
                (Backup.chrono t < Backup.chrono Samples.march_2)%N)
     [Samples.march_1] ∧
   redis Samples.fresh = None ∧
   ∃ d0, cache_dir Samples.fresh = Some d0 ∧ FS.writable d0 = true) ∧
  Backup.restore Samples.fresh MoreSamples.second_backup Backup.no_faults
  = (Service (stats Samples.fresh) (memory_cache Samples.in_files)
       (cache_dir Samples.in_files) None, Ok tt).
Proof.
  assert (Backup.backup Samples.in_files MoreSamples.one_backup Samples.march_2 None
          = (MoreSamples.second_backup, Ok tt)) as Hrun.
  { apply injective_projections; [reflexivity | vm_compute; reflexivity]. }
  assert (Backup.valid_datetime Samples.march_2) as Hnow
    by (repeat split; vm_compute; discriminate).
  assert (Forall (λ t, Backup.valid_datetime t ∧
                       (Backup.chrono t < Backup.chrono Samples.march_2)%N)
            [Samples.march_1]) as Hts.
  { repeat constructor; vm_compute; (discriminate || reflexivity). }
  assert (∃ d0, cache_dir Samples.fresh = Some d0 ∧ FS.writable d0 = true) as Hdir
    by (eexists; split; reflexivity).
  assert (Forall (λ f, f ∈ Backup.memory_backup_name <$> [Samples.march_1])
            (filter (λ f, PyStr.startswith f "memory_cache_" = true)
               (elements (dom (default ∅ MoreSamples.one_backup))))) as Hmem.
  { apply (bool_decide_unpack _). vm_compute. exact I. }
  assert (Forall (λ f, f ∈ Backup.file_backup_name <$> [Samples.march_1])
            (filter (λ f, PyStr.startswith f "file_cache_" = true)
               (elements (dom (default ∅ MoreSamples.one_backup))))) as Hfile.
  { apply (bool_decide_unpack _). vm_compute. exact I. }
  split.
  { split; [exact Hrun|]. split; [exact Hnow|]. split; [exact Hts|].
    split; [reflexivity | exact Hdir]. }
  exact (backup_restore_roundtrip Samples.in_files Samples.fresh
           MoreSamples.one_backup Samples.march_2 None MoreSamples.second_backup
           [Samples.march_1] Hrun Hnow Hts Hmem Hfile eq_refl Hdir).
Defined.

Lemma restore_with_redis_fails_witness :
  (is_Some (redis Samples.in_redis) ∧
   ∀ f, f ∈ dom (default (∅ : gmap string (Backup.entry string)) None) →
        PyStr.startswith f "redis_cache_" = false) ∧
  (Backup.restore Samples.in_redis
     (Backup.backup Samples.in_memory None Samples.march_1 None).1
     Backup.no_faults).2 ≠ Ok tt.
Proof.
  assert (is_Some (redis Samples.in_redis)) as Hr by (eexists; reflexivity).
  assert (∀ f, f ∈ dom (default (∅ : gmap string (Backup.entry string)) None) →
               PyStr.startswith f "redis_cache_" = false) as Hnone.
  { intros f Hf. change (f ∈ dom (∅ : gmap string (Backup.entry string))) in Hf.
    rewrite dom_empty_L in Hf.
    destruct (not_elem_of_empty (C:=gset string) f Hf). }
  split; [split; [exact Hr | exact Hnone]|].
  exact (restore_with_redis_fails Samples.in_redis Samples.in_memory None
           Samples.march_1 None Backup.no_faults Hr Hnone).
Defined.

Lemma none_is_never_reused_witness :
  ((Memo.dict_get (∅ : gmap string (option nat)) Samples.call_key).2 = None ∧
   (∀ m, MoreSamples.always_none m = None) ∧
   ∀ c : gmap string (option nat),
     (Memo.dict_get c Samples.call_key).2 = None →
     (Memo.dict_get
        (Memo.dict_set (Memo.dict_get c Samples.call_key).1 Samples.call_key None)
        Samples.call_key).2 = None) ∧
  Memo.calls
    (Memo.run Memo.dict_get Memo.dict_set MoreSamples.always_none Samples.call_key
       (Memo.one_by_one 3) (Memo.spawn 3 ∅)) = 3%nat ∧
  Memo.tasks
    (Memo.run Memo.dict_get Memo.dict_set MoreSamples.always_none Samples.call_key
       (Memo.one_by_one 3) (Memo.spawn 3 ∅))
  = replicate 3 (Memo.Done None).
Proof.
  assert ((Memo.dict_get (∅ : gmap string (option nat)) Samples.call_key).2 = None)
    as Hmiss by reflexivity.
  assert (∀ m, MoreSamples.always_none m = None) as Hnone by reflexivity.
  assert (∀ c : gmap string (option nat),
     (Memo.dict_get c Samples.call_key).2 = None →
     (Memo.dict_get
        (Memo.dict_set (Memo.dict_get c Samples.call_key).1 Samples.call_key None)
        Samples.call_key).2 = None) as Hstays.
  { intros c _. unfold Memo.dict_get, Memo.dict_set.
    change (default None (<[Samples.call_key:=None]> c !! Samples.call_key) = None).
    rewrite lookup_insert_eq. reflexivity. }
  split; [split; [exact Hmiss | split; [exact Hnone | exact Hstays]]|].
  exact (none_is_never_reused Memo.dict_get Memo.dict_set MoreSamples.always_none
           Samples.call_key 3 ∅ Hmiss Hnone Hstays).
Defined.

Lemma every_call_returns_witness :
  ((1 < 2)%nat ∧ (3 ≤ count_occ Nat.eq_dec [0; 1; 0; 1; 0; 1]%nat 1)%nat) ∧
  ∃ r, Memo.tasks
         (Memo.run Memo.dict_get Memo.dict_set Samples.nth_run Samples.call_key
            [0; 1; 0; 1; 0; 1]%nat (Memo.spawn 2 ∅)) !! 1%nat
       = Some (Memo.Done r).
Proof.
  assert (1 < 2)%nat as H1 by lia.
  assert (3 ≤ count_occ Nat.eq_dec [0; 1; 0; 1; 0; 1]%nat 1)%nat as H2
    by (vm_compute; lia).
  split; [split; [exact H1 | exact H2]|].
  exact (every_call_returns Memo.dict_get Memo.dict_set Samples.nth_run
           Samples.call_key [0; 1; 0; 1; 0; 1]%nat 2 ∅ 1%nat H1 H2).
Defined.

Lemma monitor_all_or_nothing_witness :
  (2 ≠ 0 ∧ (3 < Z.to_nat (10 / 2))%nat ∧
   redis (MoreSamples.failing 3) = Some (Redis.Client false ∅) ∧
   Redis.up (Redis.Client false ∅) = false) ∧
  Monitor.monitor MoreSamples.rate_zero MoreSamples.rate_zero MoreSamples.clock
    MoreSamples.failing 10 2 = [].
Proof.
  assert (2 ≠ 0) as H1 by lia.
  assert (3 < Z.to_nat (10 / 2))%nat as H2 by (vm_compute; lia).
  split; [split; [exact H1 | split; [exact H2 | split; reflexivity]]|].
  exact (monitor_all_or_nothing MoreSamples.rate_zero MoreSamples.rate_zero
           MoreSamples.clock MoreSamples.failing 10 2 3 (Redis.Client false ∅)
           H1 H2 eq_refl eq_refl).
Defined.

Lemma monitor_history_witness :
  (2 ≠ 0 ∧
   ∀ k, (k < Z.to_nat (10 / 2))%nat →
        MoreSamples.rate_zero (MoreSamples.steady k) = Ok 0 ∧
        MoreSamples.rate_zero (MoreSamples.steady k) = Ok 0 ∧
        ∀ r, redis (MoreSamples.steady k) = Some r → Redis.up r = true) ∧
  length (Monitor.monitor MoreSamples.rate_zero MoreSamples.rate_zero
            MoreSamples.clock MoreSamples.steady 10 2) = 5%nat.
Proof.
  assert (2 ≠ 0) as H1 by lia.
  assert (∀ k, (k < Z.to_nat (10 / 2))%nat →
        MoreSamples.rate_zero (MoreSamples.steady k) = Ok 0 ∧
        MoreSamples.rate_zero (MoreSamples.steady k) = Ok 0 ∧
        ∀ r, redis (MoreSamples.steady k) = Some r → Redis.up r = true) as Hok.
  { intros k _. split; [reflexivity|]. split; [reflexivity|].
    intros r Hr. injection Hr as <-. reflexivity. }
  split; [split; [exact H1 | exact Hok]|].
  rewrite (monitor_history MoreSamples.rate_zero MoreSamples.rate_zero
             MoreSamples.clock MoreSamples.steady 10 2 (λ _, 0) (λ _, 0) H1 Hok).
  reflexivity.
Defined.

Example monitor_zero_interval :
  Monitor.monitor MoreSamples.rate_zero MoreSamples.rate_zero MoreSamples.clock
    MoreSamples.steady 10 0 = [].
Proof. reflexivity. Qed.
